(** * mcp-nextcloud: the note update protocol and the request analytics

    A shallow embedding of [src/client/notes.ts] (the conditional update of
    a note, [updateNoteWithRetry]) and of the analytics part of
    [src/http-server.ts] ([loadAnalytics], [saveAnalytics], [trackRequest],
    [trackToolCall] and the [/analytics] summary), followed by the
    properties of the specification that were checked against them. *)

From Stdlib Require Import String Ascii List ZArith Arith Bool Lia.
From Stdlib Require Import DecimalString Sorted Permutation.
From Equations Require Import Equations.
Import ListNotations.

Local Open Scope string_scope.
Local Open Scope list_scope.

(* ===================================================================== *)
(** * Part I: definitions                                                 *)
(* ===================================================================== *)

(** ** JavaScript strings

    Strings are modelled as [string]; the operations below are the ones
    the two source files call. *)
Module JsString.

(** The double quote character, code 34. *)
Definition dquote : ascii := ascii_of_nat 34.

(** The string between two double quotes. *)
Definition quoted (s : string) : string :=
  String dquote (s ++ String dquote EmptyString).

(** [s.includes(sub)]. *)
Fixpoint includes (s sub : string) : bool :=
  String.prefix sub s
  || match s with
     | EmptyString => false
     | String _ s' => includes s' sub
     end.

(** [s.replace(/c/g, '')]: every occurrence of the character is dropped. *)
Fixpoint remove_all (c : ascii) (s : string) : string :=
  match s with
  | EmptyString => EmptyString
  | String a s' =>
      if Ascii.eqb a c then remove_all c s' else String a (remove_all c s')
  end.

(** [s.split(c)[0]]: the part of [s] before the first [c] (all of [s]
    when there is none). *)
Fixpoint split_head (c : ascii) (s : string) : string :=
  match s with
  | EmptyString => EmptyString
  | String a s' =>
      if Ascii.eqb a c then EmptyString else String a (split_head c s')
  end.

(** [s.substring(0, n)]. *)
Definition substring_to (n : nat) (s : string) : string :=
  String.substring 0 n s.

(** Truthiness of a string: only the empty string is falsy. *)
Definition truthy (s : string) : bool :=
  match s with EmptyString => false | _ => true end.

(** [a || b] on strings. *)
Definition or_else (a b : string) : string :=
  if truthy a then a else b.

(** [a || b] where [a] may be [undefined]. *)
Definition opt_or_else (a : option string) (b : string) : string :=
  match a with
  | Some s => or_else s b
  | None => b
  end.

(** Does the character occur in the string? *)
Fixpoint mem (c : ascii) (s : string) : bool :=
  match s with
  | EmptyString => false
  | String a s' => Ascii.eqb a c || mem c s'
  end.

End JsString.

(** ** Thrown values and completions

    JavaScript can throw any value.  The source tells [Error] instances
    (which carry a [message]) from everything else with [instanceof]. *)
Inductive Thrown : Type :=
| ErrorObj (message : string)
| NonError (value : string).

(** The initial value of [lastError]. *)
Definition js_null : Thrown := NonError "null".

(** How a call ends: it returns a value or it throws (for an [async]
    function: its promise is fulfilled or rejected). *)
Inductive Completion (A : Type) : Type :=
| Return (a : A)
| Throw (t : Thrown).
Arguments Return {A} a.
Arguments Throw {A} t.

(** ** A state and exception monad

    [W] is the world an operation acts on (the remote service and the log
    of requests for the notes client, the file system and the console for
    the analytics persistence). *)
Module Eff.
Section Monad.
Context {W : Type}.

Definition M (A : Type) : Type := W -> Completion A * W.

Definition ret {A} (a : A) : M A := fun w => (Return a, w).

Definition throw {A} (t : Thrown) : M A := fun w => (Throw t, w).

Definition bind {A B} (m : M A) (k : A -> M B) : M B :=
fun w =>
  match m w with
  | (Return a, w') => k a w'
  | (Throw t, w') => (Throw t, w')
  end.

(** [try { body } catch (e) { handler(e) }], where [body] is awaited
  inside the [try] block. *)
Definition try_catch {A} (body : M A) (handler : Thrown -> M A) : M A :=
fun w =>
  match body w with
  | (Return a, w') => (Return a, w')
  | (Throw t, w') => handler t w'
  end.

(** [try { const x = await body; return tail(x); } catch (e) { handler(e) }]
  in an [async] function, where [tail(x)] is a promise that is returned
  without [await].  The [return] leaves the [try] block with the
  promise as its value, and the promise of the enclosing function is
  resolved with it afterwards: a rejection of [tail(x)] is the
  rejection of the enclosing function and never reaches [handler].
  Only what [body] throws is caught. *)
Definition try_await_then_return {A B}
  (body : M A) (tail : A -> M B) (handler : Thrown -> M B) : M B :=
fun w =>
  match body w with
  | (Return a, w') => tail a w'
  | (Throw t, w') => handler t w'
  end.

End Monad.
End Eff.

Declare Scope eff_scope.
Delimit Scope eff_scope with eff.
Notation "x <- m ;; k" := (Eff.bind m (fun x => k))
  (at level 61, m at next level, right associativity) : eff_scope.
Notation "m ;;; k" := (Eff.bind m (fun _ => k))
  (at level 61, right associativity) : eff_scope.

(** ** The notes client ([src/client/notes.ts]) *)
Module Notes.

(** Modelled from the spec: the [Note] type of [models/notes.js], which is
    not among the sources.  A versioned resource has a numeric id, a
    title, a content, a category and an opaque version tag. *)
Record Note : Type := mkNote {
  id : nat;
  title : string;
  content : string;
  category : string;
  etag : string
}.

Inductive Method : Type := GET | POST | PUT | DELETE.

(** The body of an update: [{ title, content, category }], each of them
    optional. *)
Record NoteData : Type := mkData {
  data_title : option string;
  data_content : option string;
  data_category : option string
}.

(** The argument of [makeRequest]. *)
Record RequestConfig : Type := mkRequest {
  method : Method;
  url : string;
  if_match : option string;
  data : option NoteData
}.

(** [`/apps/notes/api/v1/notes/${noteId}`] *)
Definition note_url (noteId : nat) : string :=
  "/apps/notes/api/v1/notes/" ++ NilZero.string_of_uint (Nat.to_uint noteId).

(** Has the error the form the client takes for a precondition failure:
    [(error instanceof Error) && error.message.includes('412')]. *)
Definition is412 (error : Thrown) : bool :=
  match error with
  | ErrorObj message => JsString.includes message "412"
  | NonError _ => false
  end.

(** The array [etagFormats]: the tag as given, the tag between two double
    quotes, and the tag with every double quote replaced by nothing. *)
Definition etagFormats (etag : string) : list string :=
  [ etag;
    JsString.quoted etag;
    JsString.remove_all JsString.dquote etag ].

(** A request and its outcome. *)
Definition Exchange : Type := (RequestConfig * Completion Note)%type.

Section Client.
(** The remote service: [makeRequest] of [client/base.js] is not among
    the sources and is a parameter.  [Service] is whatever state the service
    (and anybody else who edits the notes meanwhile) has; a request
    returns a note or throws, and moves the service to a new state. *)
Context {Service : Type}.
Variable makeRequest :
  RequestConfig -> Service -> Completion Note * Service.

(** The world of the client: the service, and the requests sent so far
    with what each of them gave, oldest first. *)
Definition World : Type := Service * list Exchange.

Definition M (A : Type) : Type := @Eff.M World A.

(** [await this.makeRequest(config)] *)
Definition request (config : RequestConfig) : M Note :=
  fun w =>
    let (c, s') := makeRequest config (fst w) in
    (c, (s', snd w ++ [(config, c)])).

(** [getNote] *)
Definition getNote (noteId : nat) : M Note :=
  request (mkRequest GET (note_url noteId) None None).

(** The request of one encoding attempt. *)
Definition putRequest (noteId : nat) (formattedEtag : string)
    (d : NoteData) : RequestConfig :=
  mkRequest PUT (note_url noteId) (Some formattedEtag) (Some d).

(** The [for (const formattedEtag of etagFormats)] loop with the
    [throw lastError] that follows it. *)
Fixpoint etagLoop (noteId : nat) (d : NoteData)
    (formats : list string) (lastError : Thrown) : M Note :=
  match formats with
  | [] => Eff.throw lastError
  | formattedEtag :: rest =>
      Eff.try_catch
        (request (putRequest noteId formattedEtag d))
        (fun error =>
           (* lastError = error *)
           if negb (is412 error) then Eff.throw error
           else etagLoop noteId d rest error)
  end.

(** What is left of the recovery: 1 while [retryCount] is 0, else 0. *)
Definition recoveries_left (retryCount : nat) : nat :=
  match retryCount with 0 => 1 | _ => 0 end.

(** [updateNoteWithRetry].  The test [retryCount === 0] is the last
    conjunct of the condition of the recovery; it is written as a
    case distinction so that the recursive call sees its outcome. *)
Equations updateNoteWithRetry (noteId : nat) (etag : string)
    (d : NoteData) (retryCount : nat) (w : World)
    : Completion Note * World
    by wf (recoveries_left retryCount) lt :=
  updateNoteWithRetry noteId etag d retryCount w :=
    Eff.try_catch
      (etagLoop noteId d (etagFormats etag) js_null)
      (fun error =>
         if is412 error then
           match Nat.eq_dec retryCount 0 with
           | left _ =>
               Eff.try_await_then_return
                 (getNote noteId)
                 (fun freshNote w' =>
                    updateNoteWithRetry noteId (Notes.etag freshNote) d 1 w')
                 (fun refreshError => Eff.throw error)
           | right _ => Eff.throw error
           end
         else Eff.throw error)
      w.

(** [updateNote] *)
Definition updateNote (noteId : nat) (etag : string) (d : NoteData)
    : M Note :=
  updateNoteWithRetry noteId etag d 0.

End Client.

(** *** The shape of a run

    What the log of requests of one run of the encoding loop, and of one
    update, can look like; [updateNote] is shown below to produce such
    logs only. *)
Section Traces.
Variable noteId : nat.
Variable d : NoteData.

Definition getRequest : RequestConfig :=
  mkRequest GET (note_url noteId) None None.

(** [LoopTrace formats lastError log c]: the loop over [formats],
    entered with [lastError], sends the requests of [log] and ends
    with [c]. *)
Inductive LoopTrace
  : list string -> Thrown -> list Exchange -> Completion Note -> Prop :=
| loop_exhausted lastError :
    LoopTrace [] lastError [] (Throw lastError)
| loop_success f rest lastError note :
    LoopTrace (f :: rest) lastError
      [(putRequest noteId f d, Return note)] (Return note)
| loop_abort f rest lastError error :
    is412 error = false ->
    LoopTrace (f :: rest) lastError
      [(putRequest noteId f d, Throw error)] (Throw error)
| loop_next f rest lastError error log c :
    is412 error = true ->
    LoopTrace rest error log c ->
    LoopTrace (f :: rest) lastError
      ((putRequest noteId f d, Throw error) :: log) c.

(** [UpdateTrace etag log c]: an update entered with [etag] and a
    retry count of 0 sends the requests of [log] and ends with [c]. *)
Inductive UpdateTrace
  : string -> list Exchange -> Completion Note -> Prop :=
| update_returned etag log note :
    LoopTrace (etagFormats etag) js_null log (Return note) ->
    UpdateTrace etag log (Return note)
| update_aborted etag log error :
    LoopTrace (etagFormats etag) js_null log (Throw error) ->
    is412 error = false ->
    UpdateTrace etag log (Throw error)
| update_refresh_failed etag log error refreshError :
    LoopTrace (etagFormats etag) js_null log (Throw error) ->
    is412 error = true ->
    UpdateTrace etag (log ++ [(getRequest, Throw refreshError)])
      (Throw error)
| update_retried etag log error freshNote log' c :
    LoopTrace (etagFormats etag) js_null log (Throw error) ->
    is412 error = true ->
    LoopTrace (etagFormats (Notes.etag freshNote)) js_null log' c ->
    UpdateTrace etag (log ++ (getRequest, Return freshNote) :: log') c.

End Traces.

(** Is it an update request, is it a fetch? *)
Definition isPut (x : Exchange) : bool :=
  match method (fst x) with PUT => true | _ => false end.

Definition isGet (x : Exchange) : bool :=
  match method (fst x) with GET => true | _ => false end.

(** *** A scripted service

    A service that answers the requests, whatever they are, with the
    completions of a script, in order, and refuses every request once
    the script is over. *)
Definition scripted (config : RequestConfig) (script : list (Completion Note))
    : Completion Note * list (Completion Note) :=
  match script with
  | c :: script' => (c, script')
  | [] => (Throw (ErrorObj "ECONNRESET"), [])
  end.

(** A service that keeps one note and compares the [If-Match] header of
    an update with the tag of the note between double quotes, as a
    server that only knows the quoted form does; an accepted update
    gives the note a new tag. *)
Definition quotedOnly (config : RequestConfig) (current : Note)
    : Completion Note * Note :=
  match method config with
  | PUT =>
      let quoted :=
        String "034"%char (etag current ++ String "034"%char EmptyString) in
      match if_match config with
      | Some tag =>
          if String.eqb tag quoted then
            let updated :=
              mkNote (id current) (title current)
                (match data config with
                 | Some body =>
                     match data_content body with
                     | Some text => text
                     | None => content current
                     end
                 | None => content current
                 end)
                (category current) (etag current ++ "'") in
            (Return updated, updated)
          else (Throw (ErrorObj "Request failed with status code 412"),
                current)
      | None => (Throw (ErrorObj "Request failed with status code 428"),
                 current)
      end
  | _ => (Return current, current)
  end.

(** *** Data of the examples *)

(** An update of the content alone. *)
Definition contentUpdate : NoteData := mkData None (Some "z") None.

(** The note as the service has it after somebody else's edit. *)
Definition editedNote : Note := mkNote 7 "A" "y" "c" "T1".

Definition preconditionFailed (detail : string) : Completion Note :=
  Throw (ErrorObj ("Request failed with status code 412 " ++ detail)).

(** Every update is refused with a precondition failure, the fetch
    succeeds. *)
Definition alwaysStale : list (Completion Note) :=
  [ preconditionFailed "(1)"; preconditionFailed "(2)";
    preconditionFailed "(3)"; Return editedNote;
    preconditionFailed "(4)"; preconditionFailed "(5)";
    preconditionFailed "(6)" ].

(** The tag is stale, and after the fetch the service is out of order. *)
Definition staleThenUnavailable : list (Completion Note) :=
  [ preconditionFailed "(1)"; preconditionFailed "(2)";
    preconditionFailed "(3)"; Return editedNote;
    preconditionFailed "(4)";
    Throw (ErrorObj "Request failed with status code 503") ].

(** A weak tag as a server sends it, [W/] and the tag between double
    quotes. *)
Definition weakTag : string :=
  String "W" (String "/" (String "034"%char (String "a" (String "b"
    (String "034"%char EmptyString))))).

(** The note that [quotedOnly] keeps at first. *)
Definition firstNote : Note := mkNote 7 "A" "x" "c" "T0".

End Notes.

(** ** JavaScript numbers

    The counters are numbers, that is doubles, which hold integers here;
    they are modelled by the integers they hold.  Every integer of a
    magnitude up to 2^53 is a double; beyond, a double is a multiple of a
    power of two, and the result of an addition is rounded to the nearest
    double, to the one with the even significand when two are as near. *)
Module JsNumber.

(** 2^53 *)
Definition two53 : Z := 9007199254740992.

(** The double that is nearest to an integer. *)
Definition round (m : Z) : Z :=
  let a := Z.abs m in
  if (a <? two53)%Z then m
  else
    let e := (Z.log2 a - 52)%Z in
    let q := (a / 2 ^ e)%Z in
    let r := (a mod 2 ^ e)%Z in
    let half := (2 ^ (e - 1))%Z in
    let q' :=
      if (half <? r)%Z || ((r =? half)%Z && Z.odd q) then (q + 1)%Z else q in
    (Z.sgn m * (q' * 2 ^ e))%Z.

(** [n + 1], and [n++] *)
Definition succ (n : Z) : Z := round (n + 1).

End JsNumber.

(** ** Plain JavaScript objects used as counters

    [Record<string, number>]: an object is the list of its own properties
    in the order in which [Object.entries], the spread syntax and
    [JSON.stringify] go through them.  That order is the one of the
    language: first the keys that are array indices, by ascending number,
    then the other keys in the order they were added.

    The objects are plain ones: what they do not have themselves they
    inherit from [Object.prototype].  Reading such a member where a count
    is expected gives a string, so a property can come to hold a string
    although its type says number. *)
Module JsObject.

(** What a property holds: a number, or the string that the code makes of
    an inherited member: the printed form of the member followed by
    [ones] characters 1. *)
Inductive Value : Type :=
| Num (n : Z)
| Printed (member : string) (ones : nat).

Definition Obj : Type := list (string * Value).

Definition digit_of (c : ascii) : option N :=
  let n := N_of_ascii c in
  if ((48 <=? n) && (n <=? 57))%N then Some (n - 48)%N else None.

Fixpoint parse_digits (acc : N) (s : string) : option N :=
  match s with
  | EmptyString => Some acc
  | String c s' =>
      match digit_of c with
      | Some d => parse_digits (10 * acc + d)%N s'
      | None => None
      end
  end.

(** A key is an array index when it is the canonical decimal form (no
    leading zero, no sign) of an integer from 0 to 2^32 - 2. *)
Definition array_index (k : string) : option N :=
  match k with
  | EmptyString => None
  | String c rest =>
      if Ascii.eqb c "0"%char && negb (String.eqb rest EmptyString) then None
      else
        match parse_digits 0 k with
        | Some n => if (n <? 4294967295)%N then Some n else None
        | None => None
        end
  end.

(** The own property [k] of [o], [None] when [o] has none. *)
Fixpoint get (k : string) (o : Obj) : option Value :=
  match o with
  | [] => None
  | (k', v) :: o' => if String.eqb k' k then Some v else get k o'
  end.

(** The functions of [Object.prototype]. *)
Definition prototypeFunctions : list string :=
  [ "constructor"; "__defineGetter__"; "__defineSetter__"; "hasOwnProperty";
    "__lookupGetter__"; "__lookupSetter__"; "isPrototypeOf";
    "propertyIsEnumerable"; "toString"; "valueOf"; "toLocaleString" ].

(** Is [k] the name of a member of [Object.prototype]: one of its
    functions, or the accessor [__proto__]? *)
Definition inherited (k : string) : bool :=
  String.eqb k "__proto__" || existsb (String.eqb k) prototypeFunctions.

(** The string that an inherited member becomes in an addition: a
    function prints as its source, which for a built-in one is its name
    and a body that says native code (the function [constructor] is
    [Object]); [__proto__] reads as the prototype, an object. *)
Definition printed (member : string) : string :=
  if String.eqb member "__proto__" then "[object Object]"
  else
    "function "
    ++ (if String.eqb member "constructor" then "Object" else member)
    ++ "() { [native code] }".

(** The characters of a string value. *)
Definition text_of (member : string) (ones : nat) : string :=
  printed member ++ String.concat EmptyString (repeat "1" ones).

(** What [o[k]] reads. *)
Inductive Read : Type :=
| Own (v : Value)
| Inherited (member : string)
| Undefined.

(** [o[k]]: the own property, else the inherited member, else
    [undefined]. *)
Definition read (k : string) (o : Obj) : Read :=
  match get k o with
  | Some v => Own v
  | None => if inherited k then Inherited k else Undefined
  end.

(** [(x || 0) + 1] for what was read.  A number gets one more (zero is
    falsy, and 0 + 1 is what it gets as well); a string is not empty and
    gets the character 1 appended; an inherited member is an object or a
    function, which is truthy, and is printed in front of the 1. *)
Definition plus_one (x : Read) : Value :=
  match x with
  | Own (Num n) => Num (JsNumber.succ n)
  | Own (Printed member ones) => Printed member (S ones)
  | Inherited member => Printed member 1
  | Undefined => Num 1
  end.

(** The number that [o] has under [k], 0 when it has no number there. *)
Definition get_or_zero (k : string) (o : Obj) : Z :=
  match get k o with
  | Some (Num n) => n
  | _ => 0%Z
  end.

(** A property that the object has gets a value: the place of the key
    does not change. *)
Fixpoint update (k : string) (v : Value) (o : Obj) : Obj :=
  match o with
  | [] => []
  | (k', v') :: o' =>
      if String.eqb k' k then (k', v) :: o' else (k', v') :: update k v o'
  end.

(** A new array index goes before the first key that is not one, or is
    a greater one. *)
Fixpoint insert_index (n : N) (k : string) (v : Value) (o : Obj) : Obj :=
  match o with
  | [] => [(k, v)]
  | (k', v') :: o' =>
      match array_index k' with
      | Some n' =>
          if (n' <? n)%N then (k', v') :: insert_index n k v o'
          else (k, v) :: o
      | None => (k, v) :: o
      end
  end.

(** The own property [k] of [o] is given the value [v], and is made if [o]
    has none: what a computed key in an object literal does. *)
Definition set (k : string) (v : Value) (o : Obj) : Obj :=
  match get k o with
  | Some _ => update k v o
  | None =>
      match array_index k with
      | Some n => insert_index n k v o
      | None => o ++ [(k, v)]
      end
  end.

(** [o[k] = v] for a number or a string [v].  An own property takes the
    value; without one, the key [__proto__] is the inherited accessor,
    whose setter does nothing with a value that is not an object, and any
    other key becomes an own property (the functions of the prototype are
    writable, so they do not stand in the way). *)
Definition assign (k : string) (v : Value) (o : Obj) : Obj :=
  match get k o with
  | Some _ => update k v o
  | None => if String.eqb k "__proto__" then o else set k v o
  end.

(** [o[k] = (o[k] || 0) + 1] *)
Definition increment (k : string) (o : Obj) : Obj :=
  assign k (plus_one (read k o)) o.

(** [Object.entries(o)] *)
Definition entries (o : Obj) : list (string * Value) := o.

(** [Object.keys(o)] *)
Definition keys (o : Obj) : list string := map fst o.

(** [entries.reduce((acc, [k, v]) => ({ ...acc, [k]: v }), {})]: the
    spread copies the properties of [acc] in their order, then [k] is
    set in the copy. *)
Definition from_entries (l : list (string * Value)) : Obj :=
  fold_left (fun acc kv => set (fst kv) (snd kv) acc) l [].

(** Under [k] the object has a number, or nothing. *)
Definition is_count (k : string) (o : Obj) : Prop :=
  get k o = None \/ exists n, get k o = Some (Num n).

(** Does the object hold numbers only, as its type says? *)
Definition numbers (o : Obj) : Prop :=
  Forall (fun kv => exists n, snd kv = Num n) o.

(** The number of a value, 0 for a string. *)
Definition number (v : Value) : Z :=
  match v with
  | Num n => n
  | Printed _ _ => 0%Z
  end.

End JsObject.

(** ** JavaScript arrays *)
Module JsArray.
Section Sort.
Context {A : Type}.
Variable compareFn : A -> A -> Z.

(** [x] is put before the first element it must not follow. *)
Fixpoint insert (x : A) (l : list A) : list A :=
match l with
| [] => [x]
| y :: l' =>
    if (0 <? compareFn x y)%Z then y :: insert x l' else x :: l
end.

(** [l.sort(compareFn)].  The language asks for a stable sort: elements
  that compare equal keep their order.  This is the stable insertion
  sort; with a consistent comparator every stable sort gives the same
  array. *)
Definition sort (l : list A) : list A := fold_right insert [] l.

(** The comparator lets [x] stand before [y]. *)
Definition inOrder (x y : A) : Prop := (compareFn x y <= 0)%Z.

End Sort.

(** [l.slice(0, n)] *)
Definition slice_to {A} (n : nat) (l : list A) : list A := firstn n l.

(** [l.reverse()] *)
Definition reverse {A} (l : list A) : list A := rev l.

(** [l.unshift(x)] *)
Definition unshift {A} (x : A) (l : list A) : list A := x :: l.

(** [l.pop()]: the array without its last element. *)
Definition pop {A} (l : list A) : list A := removelast l.

End JsArray.

(** ** The request analytics ([src/http-server.ts]) *)
Module Analytics.

(** An element of [recentToolCalls]. *)
Record ToolCall : Type := mkToolCall {
  tool : string;
  timestamp : string;
  clientIp : string
}.

(** [interface Analytics] *)
Record Analytics : Type := mkAnalytics {
  serverStartTime : string;
  totalRequests : Z;
  totalToolCalls : Z;
  requestsByMethod : JsObject.Obj;
  requestsByEndpoint : JsObject.Obj;
  toolCalls : JsObject.Obj;
  recentToolCalls : list ToolCall;
  clientsByIp : JsObject.Obj;
  clientsByUserAgent : JsObject.Obj;
  hourlyRequests : JsObject.Obj
}.

(** [defaultAnalytics]; [startTime] is the [new Date().toISOString()]
    taken when the module is loaded. *)
Definition defaultAnalytics (startTime : string) : Analytics :=
  {| serverStartTime := startTime;
     totalRequests := 0;
     totalToolCalls := 0;
     requestsByMethod := [];
     requestsByEndpoint := [];
     toolCalls := [];
     recentToolCalls := [];
     clientsByIp := [];
     clientsByUserAgent := [];
     hourlyRequests := [] |}.

(** What the handlers read of an express [Request]. *)
Record Request : Type := mkRequest {
  method : string;
  x_forwarded_for : option string;
  ip : option string;
  user_agent : option string
}.

(** [a || b] where both may be [undefined]. *)
Definition or_opt (a b : option string) : option string :=
  match a with
  | Some s => if JsString.truthy s then Some s else b
  | None => b
  end.

(** [(req.headers['x-forwarded-for'] as string)?.split(',')[0]
     || req.ip || 'unknown'] *)
Definition clientIpOf (req : Request) : string :=
  JsString.opt_or_else
    (or_opt (option_map (JsString.split_head ","%char) (x_forwarded_for req))
            (ip req))
    "unknown".

(** [shortAgent] *)
Definition shortAgentOf (req : Request) : string :=
  let userAgent := JsString.opt_or_else (user_agent req) "unknown" in
  JsString.or_else (JsString.split_head "/"%char userAgent)
                   (JsString.substring_to 30 userAgent).

(** [new Date().toISOString().substring(0, 13) + ':00'], [now] being the
    ISO string of the clock. *)
Definition hourKeyOf (now : string) : string :=
  JsString.substring_to 13 now ++ ":00".

(** [trackRequest(req, endpoint)], run at the time [now], as a
    transformation of the [analytics] object. *)
Definition trackRequest (now : string) (req : Request) (endpoint : string)
    (a : Analytics) : Analytics :=
  {| serverStartTime := serverStartTime a;
     totalRequests := JsNumber.succ (totalRequests a);
     totalToolCalls := totalToolCalls a;
     requestsByMethod := JsObject.increment (method req) (requestsByMethod a);
     requestsByEndpoint := JsObject.increment endpoint (requestsByEndpoint a);
     toolCalls := toolCalls a;
     recentToolCalls := recentToolCalls a;
     clientsByIp := JsObject.increment (clientIpOf req) (clientsByIp a);
     clientsByUserAgent :=
       JsObject.increment (shortAgentOf req) (clientsByUserAgent a);
     hourlyRequests := JsObject.increment (hourKeyOf now) (hourlyRequests a) |}.

(** [trackToolCall(toolName, clientIp)], run at the time [now]. *)
Definition trackToolCall (now : string) (toolName : string)
    (clientIp : string) (a : Analytics) : Analytics :=
  let recent :=
    JsArray.unshift (mkToolCall toolName now clientIp) (recentToolCalls a) in
  {| serverStartTime := serverStartTime a;
     totalRequests := totalRequests a;
     totalToolCalls := JsNumber.succ (totalToolCalls a);
     requestsByMethod := requestsByMethod a;
     requestsByEndpoint := requestsByEndpoint a;
     toolCalls := JsObject.increment toolName (toolCalls a);
     recentToolCalls :=
       if (100 <? List.length recent)%nat then JsArray.pop recent else recent;
     clientsByIp := clientsByIp a;
     clientsByUserAgent := clientsByUserAgent a;
     hourlyRequests := hourlyRequests a |}.




(** A call of [trackToolCall]: time, tool name, client address. *)
Definition ToolCallArgs : Type := (string * string * string)%type.

(** A sequence of [trackToolCall], in order. *)
Definition trackToolCalls (calls : list ToolCallArgs) (a : Analytics)
    : Analytics :=
  fold_left
    (fun acc c => trackToolCall (fst (fst c)) (snd (fst c)) (snd c) acc)
    calls a.

(** The entry that a call leaves in the ring. *)
Definition entryOf (c : ToolCallArgs) : ToolCall :=
  mkToolCall (snd (fst c)) (fst (fst c)) (snd c).

(** [([, a], [, b]) => b - a].  The difference of two numbers has the
    sign of the exact difference.  With a string on either side it is not
    a number: it is neither above nor below zero, as 0 is in the tests of
    the sort. *)
Definition byCountDesc (x y : string * JsObject.Value) : Z :=
  match snd x, snd y with
  | JsObject.Num a, JsObject.Num b => (b - a)%Z
  | _, _ => 0%Z
  end.

(** The JSON document of the [/analytics] endpoint (the fields [server]
    and [uptime], which do not depend on the counters, are left out). *)
Record Summary : Type := mkSummary {
  sum_serverStartTime : string;
  sum_totalRequests : Z;
  sum_totalToolCalls : Z;
  sum_uniqueClients : nat;
  byMethod : JsObject.Obj;
  byEndpoint : JsObject.Obj;
  byTool : JsObject.Obj;
  byIp : JsObject.Obj;
  byUserAgent : JsObject.Obj;
  sum_hourlyRequests : JsObject.Obj;
  sum_recentToolCalls : list ToolCall
}.

Section Summary.
(** [String.prototype.localeCompare]: negative, zero or positive; the
    collation is the one of the host and is a parameter. *)
Variable localeCompare : string -> string -> Z.

(** [([a], [b]) => b.localeCompare(a)] *)
Definition byKeyDesc (x y : string * JsObject.Value) : Z :=
  localeCompare (fst y) (fst x).

Definition sortedTools (a : Analytics) : JsObject.Obj :=
  JsObject.from_entries
    (JsArray.sort byCountDesc (JsObject.entries (toolCalls a))).

Definition sortedClients (a : Analytics) : JsObject.Obj :=
  JsObject.from_entries
    (JsArray.slice_to 20
       (JsArray.sort byCountDesc (JsObject.entries (clientsByIp a)))).

Definition last24Hours (a : Analytics) : JsObject.Obj :=
  JsObject.from_entries
    (JsArray.reverse
       (JsArray.slice_to 24
          (JsArray.sort byKeyDesc (JsObject.entries (hourlyRequests a))))).

(** The document that the handler of [/analytics] sends, computed from
    the [analytics] object. *)
Definition summarize (a : Analytics) : Summary :=
  {| sum_serverStartTime := serverStartTime a;
     sum_totalRequests := totalRequests a;
     sum_totalToolCalls := totalToolCalls a;
     sum_uniqueClients := List.length (JsObject.keys (clientsByIp a));
     byMethod := requestsByMethod a;
     byEndpoint := requestsByEndpoint a;
     byTool := sortedTools a;
     byIp := sortedClients a;
     byUserAgent := clientsByUserAgent a;
     sum_hourlyRequests := last24Hours a;
     sum_recentToolCalls := JsArray.slice_to 20 (recentToolCalls a) |}.


End Summary.

(** The states of a server that started without a snapshot: the
    default state, changed by the two tracking functions only. *)
Inductive Reachable (startTime : string) : Analytics -> Prop :=
| reach_start : Reachable startTime (defaultAnalytics startTime)
| reach_request now req endpoint a :
    Reachable startTime a ->
    Reachable startTime (trackRequest now req endpoint a)
| reach_tool_call now toolName ip a :
    Reachable startTime a ->
    Reachable startTime (trackToolCall now toolName ip a).

(** Are the counts of the properties in descending order, as an object
    is gone through? *)
Fixpoint descendingCounts (o : JsObject.Obj) : bool :=
  match o with
  | [] => true
  | (_, v) :: o' =>
      match o' with
      | [] => true
      | (_, v') :: _ =>
          match v, v' with
          | JsObject.Num n, JsObject.Num n' =>
              (n' <=? n)%Z && descendingCounts o'
          | _, _ => false
          end
      end
  end.


(** The state of a server that has seen two calls of a tool named 7 and
    one call of a tool named 3 since it started. *)
Definition numberedTools : Analytics :=
  trackToolCalls
    [ ("2024-05-01T10:00:00.000Z", "7", "1.2.3.4");
      ("2024-05-01T10:01:00.000Z", "3", "1.2.3.4");
      ("2024-05-01T10:02:00.000Z", "7", "1.2.3.4") ]
    (defaultAnalytics "2024-05-01T09:00:00.000Z").

(** The comparison of strings by character codes.  On the hour keys that
    [trackRequest] writes (digits at fixed places between the same
    separators) every collation agrees with it. *)
Fixpoint compareCodes (a b : string) : Z :=
  match a, b with
  | EmptyString, EmptyString => 0
  | EmptyString, String _ _ => -1
  | String _ _, EmptyString => 1
  | String x a', String y b' =>
      if Ascii.eqb x y then compareCodes a' b'
      else if (N_of_ascii x <? N_of_ascii y)%N then -1 else 1
  end%Z.

End Analytics.

(** ** The persistence of the analytics ([src/http-server.ts]) *)
Module Persistence.
Import Analytics.

(** A line of the console. *)
Inductive ConsoleLine : Type :=
| ConsoleLog (text : string)
| ConsoleWarn (text : string) (error : Thrown).

(** [process.env.ANALYTICS_FILE || '/app/data/nextcloud-mcp-analytics.json'] *)
Definition analyticsFile (env : option string) : string :=
  JsString.opt_or_else env "/app/data/nextcloud-mcp-analytics.json".

Section Files.
(** The file system, the JSON codec and [path.dirname] belong to the
    platform and are parameters; the calls of [fs] that can throw
    return a completion. *)
Context {FS : Type}.
Variable existsSync : string -> FS -> bool.
Variable readFileSync : string -> FS -> Completion string * FS.
Variable mkdirSync : string -> FS -> Completion unit * FS.
Variable writeFileSync : string -> string -> FS -> Completion unit * FS.
Variable dirname : string -> string.
Variable JSON_parse : string -> Completion Analytics.
Variable JSON_stringify : Analytics -> Completion string.
Variable ANALYTICS_FILE : string.
Variable startTime : string.

(** The world of the process: the file system and the console. *)
Definition World : Type := FS * list ConsoleLine.

Definition M (A : Type) : Type := @Eff.M World A.

Definition onFiles {A} (op : FS -> Completion A * FS) : M A :=
  fun w => let (c, fs') := op (fst w) in (c, (fs', snd w)).

Definition exists_ (path : string) : M bool :=
  fun w => (Return (existsSync path (fst w)), w).

Definition pure {A} (c : Completion A) : M A := fun w => (c, w).

Definition console (line : ConsoleLine) : M unit :=
  fun w => (Return tt, (fst w, snd w ++ [line])).

(** [loadAnalytics()].  The [return loaded] inside the [try] block is
    the [Some] of the block, falling out of it the [None]. *)
Definition loadAnalytics : M Analytics :=
  (found <-
     Eff.try_catch
       (present <- exists_ ANALYTICS_FILE ;;
        if (present : bool) then
          data <- onFiles (readFileSync ANALYTICS_FILE) ;;
          loaded <- pure (JSON_parse data) ;;
          console (ConsoleLog ("Loaded analytics from " ++ ANALYTICS_FILE)) ;;;
          Eff.ret (Some loaded)
        else Eff.ret None)
       (fun error =>
          console
            (ConsoleWarn "Could not load analytics file, starting fresh:"
               error) ;;;
          Eff.ret None) ;;
   match found with
   | Some loaded => Eff.ret loaded
   | None => Eff.ret (defaultAnalytics startTime)
   end)%eff.

(** [saveAnalytics()], for the current value of [analytics]. *)
Definition saveAnalytics (analytics : Analytics) : M unit :=
  Eff.try_catch
    (let dir := dirname ANALYTICS_FILE in
     present <- exists_ dir ;;
     (if negb present then onFiles (mkdirSync dir) else Eff.ret tt) ;;;
     text <- pure (JSON_stringify analytics) ;;
     onFiles (writeFileSync ANALYTICS_FILE text))%eff
    (fun error =>
       console (ConsoleWarn "Could not save analytics file:" error)).

(** The handlers of [SIGTERM] and [SIGINT], up to [process.exit(0)]. *)
Definition onSignal (analytics : Analytics) : M unit :=
  (console (ConsoleLog "Saving analytics before shutdown...") ;;;
   saveAnalytics analytics)%eff.

(** The snapshot cannot be read: there is no file, or reading it
    throws, or its text is not the JSON of a snapshot. *)
Definition snapshotUnreadable (fs : FS) : Prop :=
  existsSync ANALYTICS_FILE fs = false
  \/ (exists error, fst (readFileSync ANALYTICS_FILE fs) = Throw error)
  \/ (exists data error,
        fst (readFileSync ANALYTICS_FILE fs) = Return data
        /\ JSON_parse data = Throw error).

End Files.

(** *** A small file system

    One file at most, which may be protected against reading; the
    directory of the file may be missing and the disk may be full. *)
Record Disk : Type := mkDisk {
  file : option string;
  readable : bool;
  directory : bool;
  full : bool
}.

Definition diskExists (path : string) (disk : Disk) : bool :=
  if String.eqb path "/app/data" then directory disk
  else match file disk with Some _ => true | None => false end.

Definition diskRead (path : string) (disk : Disk)
    : Completion string * Disk :=
  match file disk with
  | Some text =>
      if readable disk then (Return text, disk)
      else (Throw (ErrorObj "EACCES: permission denied"), disk)
  | None => (Throw (ErrorObj "ENOENT: no such file or directory"), disk)
  end.

Definition diskMkdir (path : string) (disk : Disk)
    : Completion unit * Disk :=
  if full disk then (Throw (ErrorObj "ENOSPC: no space left on device"), disk)
  else (Return tt, mkDisk (file disk) (readable disk) true (full disk)).

Definition diskWrite (path text : string) (disk : Disk)
    : Completion unit * Disk :=
  if full disk then (Throw (ErrorObj "ENOSPC: no space left on device"), disk)
  else (Return tt, mkDisk (Some text) true (directory disk) (full disk)).

(** A codec for the examples: it writes the start time only, and reads
    back a snapshot with that start time and no counts; a text that
    begins with a brace of the wrong kind is refused. *)
Definition toyStringify (a : Analytics) : Completion string :=
  Return (serverStartTime a).

(** The directory of the snapshot of the examples. *)
Definition toyDirname (path : string) : string := "/app/data".

Definition toyParse (text : string) : Completion Analytics :=
  if String.prefix "}" text
  then Throw (ErrorObj "Unexpected token } in JSON at position 0")
  else Return (defaultAnalytics text).

End Persistence.

(** ** The handlers of the server ([src/http-server.ts]) *)
Module Server.
Import Analytics.

(** The decimal form of an integer, as a template string writes it. *)
Definition showZ (z : Z) : string := NilZero.string_of_int (Z.to_int z).

(** The three numbers of [getUptime()], from [diff], the milliseconds
    since the start: [Math.floor] of a quotient by a positive number is
    the floor division, and the remainder operator has the sign of the
    dividend. *)
Definition uptimeParts (diff : Z) : Z * Z * Z :=
  ((diff / 3600000)%Z,
   (Z.rem diff 3600000 / 60000)%Z,
   (Z.rem diff 60000 / 1000)%Z).

(** [getUptime()] at the time [now] (in milliseconds).  [parseDate] is
    [new Date(s).getTime()], [None] when it is not a number. *)
Definition getUptime (parseDate : string -> option Z) (now : Z)
    (a : Analytics) : string :=
  match parseDate (serverStartTime a) with
  | Some start =>
      let '(hours, minutes, seconds) := uptimeParts (now - start) in
      showZ hours ++ "h " ++ showZ minutes ++ "m " ++ showZ seconds ++ "s"
  | None => "NaNh NaNm NaNs"
  end.

(** The three settings of the credentials, in the query of a request or
    in the environment; each of them may be missing. *)
Record Settings : Type := mkSettings {
  nextcloudHost : option string;
  nextcloudUsername : option string;
  nextcloudPassword : option string
}.

(** Truthiness of a value that may be [undefined]. *)
Definition truthyOpt (v : option string) : bool :=
  match v with
  | Some s => JsString.truthy s
  | None => false
  end.

(** [initializeCredentials(req)]: the arguments of the call of
    [setCredentials], when it is called.  [query] is [None] when there is
    no request. *)
Definition initializeCredentials (query : option Settings) (env : Settings)
    : option (string * string * string) :=
  let fromQuery (field : Settings -> option string) :=
    match query with
    | Some q => field q
    | None => None
    end in
  let host := or_opt (fromQuery nextcloudHost) (nextcloudHost env) in
  let username :=
    or_opt (fromQuery nextcloudUsername) (nextcloudUsername env) in
  let password :=
    or_opt (fromQuery nextcloudPassword) (nextcloudPassword env) in
  match host, username, password with
  | Some h, Some u, Some p =>
      if JsString.truthy h && JsString.truthy u && JsString.truthy p
      then Some (h, u, p)
      else None
  | _, _, _ => None
  end.

(** What the handler of [/mcp] reads of the body of a request: its
    [method] and the [name] of its [params] (a string here). *)
Record RpcBody : Type := mkBody {
  rpc_method : option string;
  rpc_params : option (option string)
}.

(** The tool that is tracked, if any:
    [req.body?.method === 'tools/call' && req.body?.params?.name]. *)
Definition trackedTool (body : option RpcBody) : option string :=
  match body with
  | Some b =>
      match rpc_method b with
      | Some m =>
          if String.eqb m "tools/call" then
            match rpc_params b with
            | Some (Some name) =>
                if JsString.truthy name then Some name else None
            | _ => None
            end
          else None
      | None => None
      end
  | None => None
  end.

(** The tracking done by the handler of [/mcp]; the two calls read the
    clock one after the other. *)
Definition trackMcp (now now' : string) (req : Request)
    (body : option RpcBody) (a : Analytics) : Analytics :=
  let a' := trackRequest now req "/mcp" a in
  match trackedTool body with
  | Some name => trackToolCall now' name (clientIpOf req) a'
  | None => a'
  end.

(** The routes of the application. *)
Inductive Route : Type :=
| Health
| AnalyticsJson
| Dashboard
| Mcp (body : option RpcBody)
| Root.

Definition endpointOf (route : Route) : string :=
  match route with
  | Health => "/health"
  | AnalyticsJson => "/analytics"
  | Dashboard => "/analytics/dashboard"
  | Mcp _ => "/mcp"
  | Root => "/"
  end.

(** What serving a request does to the analytics: every handler starts
    with [trackRequest] for its own path. *)
Definition serve (now now' : string) (req : Request) (route : Route)
    (a : Analytics) : Analytics :=
  match route with
  | Mcp body => trackMcp now now' req body a
  | _ => trackRequest now req (endpointOf route) a
  end.

(** The states of a server that started without a snapshot and has served
    requests since. *)
Inductive Served (startTime : string) : Analytics -> Prop :=
| served_start : Served startTime (defaultAnalytics startTime)
| served_request now now' req route a :
    Served startTime a ->
    Served startTime (serve now now' req route a).

(** The sum of the numbers of an object. *)
Definition total (o : JsObject.Obj) : Z :=
  fold_right (fun kv acc => (JsObject.number (snd kv) + acc)%Z) 0%Z o.

(** What counting leaves under a key after at most [n] events: a number
    between 1 and [n], or, under the name of a member that every object
    inherits, the text of that member followed by a 1 for every event. *)
Definition counted (n : Z) (kv : string * JsObject.Value) : Prop :=
  match snd kv with
  | JsObject.Num c => (1 <= c <= n)%Z
  | JsObject.Printed member ones =>
      JsObject.inherited (fst kv) = true /\ member = fst kv /\ 1 <= ones
  end.

(** An object holds a tally of at most [n] events: its keys are
    distinct, every value that it holds is what counting leaves, and,
    while [n] is in the range where counting is exact, it has at most
    [n] keys and its numbers add up to at most [n]. *)
Definition tally (o : JsObject.Obj) (n : Z) : Prop :=
  NoDup (JsObject.keys o)
  /\ Forall (counted n) o
  /\ ((n < JsNumber.two53)%Z ->
      (Z.of_nat (length o) <= n)%Z /\ (total o <= n)%Z).

(** The paths that the handlers give to [trackRequest]. *)
Definition paths : list string :=
  ["/health"; "/analytics"; "/analytics/dashboard"; "/mcp"; "/"].

(** A request of the examples. *)
Definition curl : Request :=
  mkRequest "POST" (Some "203.0.113.9, 10.0.0.1") (Some "10.0.0.1")
    (Some "curl/8.5.0").

(** A call of the tool that creates a note. *)
Definition createNoteCall : option RpcBody :=
  Some (mkBody (Some "tools/call")
          (Some (Some "nextcloud_notes_create_note"))).

(** A server that has answered a health check and two tool calls, the
    second one an hour after the first. *)
Definition quietMorning : Analytics :=
  serve "2024-05-01T11:05:00.000Z" "2024-05-01T11:05:00.001Z" curl
    (Mcp createNoteCall)
    (serve "2024-05-01T10:10:00.000Z" "2024-05-01T10:10:00.002Z" curl
       (Mcp createNoteCall)
       (serve "2024-05-01T10:00:00.000Z" "2024-05-01T10:00:00.000Z"
          (mkRequest "GET" None None None) Health
          (defaultAnalytics "2024-05-01T09:00:00.000Z"))).

End Server.

(* ===================================================================== *)
(** * Part II: properties                                                 *)
(* ===================================================================== *)

(** ** Strings *)
Module JsStringFacts.
Import JsString.

(** Removing a character keeps the other characters, in their order. *)
Lemma remove_all_filter (s : string) :
  remove_all dquote s
  = string_of_list_ascii
      (filter (fun c => negb (Ascii.eqb c "034"%char))
         (list_ascii_of_string s)).
Proof.
  induction s as [|a s IH]; [reflexivity|].
  cbn [remove_all list_ascii_of_string filter].
  change dquote with "034"%char.
  destruct (Ascii.eqb a "034"%char); cbn [negb string_of_list_ascii];
    now rewrite <- IH.
Qed.





(** Removing a character that does not occur changes nothing. *)
Lemma remove_all_absent (c : ascii) (s : string) :
  mem c s = false -> remove_all c s = s.
Proof.
  induction s as [|a s IH]; simpl; [reflexivity|].
  intros H. apply orb_false_iff in H as [Ha Hs].
  rewrite Ha, IH by assumption. reflexivity.
Qed.

(** After the removal the character does not occur. *)
Lemma remove_all_mem (c : ascii) (s : string) :
  mem c (remove_all c s) = false.
Proof.
  induction s as [|a s IH]; simpl; [reflexivity|].
  destruct (Ascii.eqb a c) eqn:E; simpl; [assumption|].
  now rewrite E.
Qed.

End JsStringFacts.

(** ** The conditional update *)
Module NotesFacts.
Import Notes.

Section Protocol.
Context {Service : Type}.
Variable makeRequest :
  RequestConfig -> Service -> Completion Note * Service.
Variable noteId : nat.
Variable d : NoteData.

Lemma request_eq (config : RequestConfig) (s : Service) (log : list Exchange) :
  request makeRequest config (s, log)
  = (fst (makeRequest config s),
     (snd (makeRequest config s),
      log ++ [(config, fst (makeRequest config s))])).
Proof.
  unfold request. simpl. destruct (makeRequest config s). reflexivity.
Qed.

(** One turn of the loop: a success ends it, an error that passes the
    test lets the next encoding be tried, any other error is thrown
    out of the loop. *)
Lemma etagLoop_step (f : string) (rest : list string) (lastError : Thrown)
    (s : Service) (log : list Exchange) :
  etagLoop makeRequest noteId d (f :: rest) lastError (s, log)
  = let config := putRequest noteId f d in
    let s' := snd (makeRequest config s) in
    let c := fst (makeRequest config s) in
    match c with
    | Return note => (Return note, (s', log ++ [(config, c)]))
    | Throw error =>
        if is412 error
        then etagLoop makeRequest noteId d rest error
               (s', log ++ [(config, c)])
        else (Throw error, (s', log ++ [(config, c)]))
    end.
Proof.
  simpl. unfold Eff.try_catch. rewrite request_eq.
  destruct (makeRequest (putRequest noteId f d) s) as [[note|error] s'];
    simpl; [reflexivity|].
  destruct (is412 error); reflexivity.
Qed.

(** The loop extends the log by a loop trace. *)
Lemma etagLoop_trace (formats : list string) :
  forall (lastError : Thrown) (s : Service) (log : list Exchange),
  exists entries,
    snd (snd (etagLoop makeRequest noteId d formats lastError (s, log)))
    = log ++ entries
    /\ LoopTrace noteId d formats lastError entries
         (fst (etagLoop makeRequest noteId d formats lastError (s, log))).
Proof.
  induction formats as [|f rest IH]; intros lastError s log.
  - exists []. simpl. rewrite app_nil_r. split; [reflexivity|constructor].
  - rewrite etagLoop_step. cbv zeta.
    destruct (makeRequest (putRequest noteId f d) s) as [[note|error] s'];
      simpl.
    + eexists. split; [reflexivity|constructor].
    + destruct (is412 error) eqn:E.
      * destruct (IH error s' (log ++ [(putRequest noteId f d, Throw error)]))
          as [entries [Hlog Htrace]].
        exists ((putRequest noteId f d, Throw error) :: entries). split.
        -- rewrite Hlog, <- app_assoc. reflexivity.
        -- now constructor.
      * eexists. split; [reflexivity|]. now constructor.
Qed.

(** With a retry count other than 0 the update is the loop alone. *)
Lemma updateNoteWithRetry_no_recovery (etag : string) (retryCount : nat)
    (w : World) :
  retryCount <> 0 ->
  updateNoteWithRetry makeRequest noteId etag d retryCount w
  = etagLoop makeRequest noteId d (etagFormats etag) js_null w.
Proof.
  intros H. rewrite updateNoteWithRetry_equation_1. unfold Eff.try_catch.
  destruct (etagLoop makeRequest noteId d (etagFormats etag) js_null w)
    as [[note|error] w']; [reflexivity|].
  destruct (is412 error); [|reflexivity].
  destruct (Nat.eq_dec retryCount 0); [contradiction|reflexivity].
Qed.

(** With a retry count of 0: the loop, and after a loop that ends in
    an error that passes the test, the fetch and the second loop. *)
Lemma updateNote_eq (etag : string) (w : World) :
  updateNote makeRequest noteId etag d w
  = match etagLoop makeRequest noteId d (etagFormats etag) js_null w with
    | (Return note, w') => (Return note, w')
    | (Throw error, w') =>
        if is412 error then
          match getNote makeRequest noteId w' with
          | (Return freshNote, w'') =>
              etagLoop makeRequest noteId d
                (etagFormats (Notes.etag freshNote)) js_null w''
          | (Throw refreshError, w'') => (Throw error, w'')
          end
        else (Throw error, w')
    end.
Proof.
  unfold updateNote. rewrite updateNoteWithRetry_equation_1.
  unfold Eff.try_catch, Eff.try_await_then_return, Eff.throw.
  destruct (etagLoop makeRequest noteId d (etagFormats etag) js_null w)
    as [[note|error] w']; [reflexivity|].
  destruct (is412 error); [|reflexivity]. simpl.
  destruct (getNote makeRequest noteId w') as [[freshNote|refreshError] w''];
    [|reflexivity].
  now rewrite updateNoteWithRetry_no_recovery.
Qed.

(** Every update leaves a log of one of the four shapes. *)
Lemma updateNote_trace (etag : string) (s : Service) :
  UpdateTrace noteId d etag
    (snd (snd (updateNote makeRequest noteId etag d (s, []))))
    (fst (updateNote makeRequest noteId etag d (s, []))).
Proof.
  rewrite updateNote_eq.
  destruct (etagLoop_trace (etagFormats etag) js_null s [])
    as [entries [Hlog Htrace]].
  destruct (etagLoop makeRequest noteId d (etagFormats etag) js_null (s, []))
    as [c [s1 log1]]. cbn [fst snd app] in Hlog, Htrace. subst log1.
  destruct c as [note|error]; cbn [fst snd]; [now constructor|].
  destruct (is412 error) eqn:E; cbn [fst snd]; [|now constructor].
  unfold getNote. rewrite request_eq.
  fold (getRequest noteId).
  destruct (makeRequest (getRequest noteId) s1) as [[freshNote|refreshError] s2];
    cbn [fst snd].
  - destruct (etagLoop_trace (etagFormats (Notes.etag freshNote)) js_null s2
                (entries ++ [(getRequest noteId, Return freshNote)]))
      as [entries2 [Hlog2 Htrace2]].
    rewrite Hlog2, <- app_assoc. cbn [app].
    now apply update_retried with (error := error).
  - now apply update_refresh_failed.
Qed.

End Protocol.

(** *** What the shapes of the logs imply *)

Ltac shape_goals :=
  repeat split;
  try assumption; try reflexivity; try lia; try congruence;
  try (intros; discriminate).

Section TraceFacts.
Variable noteId : nat.
Variable d : NoteData.

Lemma loop_trace_length formats lastError log c :
  LoopTrace noteId d formats lastError log c ->
  length log <= length formats.
Proof. induction 1; simpl; lia. Qed.

(** The requests of a loop are the updates with the first encodings,
    in the order of the list. *)
Lemma loop_trace_requests formats lastError log c :
  LoopTrace noteId d formats lastError log c ->
  map fst log
  = map (fun f => putRequest noteId f d) (firstn (length log) formats).
Proof. induction 1; simpl; congruence. Qed.

Lemma loop_trace_puts formats lastError log c :
  LoopTrace noteId d formats lastError log c ->
  forallb isPut log = true.
Proof. induction 1; simpl; auto. Qed.


(** A success ends the loop and is its outcome. *)
Lemma loop_trace_return_last formats lastError log c :
  LoopTrace noteId d formats lastError log c ->
  forall i config note,
    nth_error log i = Some (config, Return note) ->
    c = Return note /\ length log = S i.
Proof.
  induction 1 as [le|f rest le n|f rest le e He|f rest le e log c He _ IH];
    intros i config note Hnth.
  - destruct i; discriminate.
  - destruct i as [|[|i]]; try discriminate.
    injection Hnth as _ <-. split; reflexivity.
  - destruct i as [|[|i]]; discriminate.
  - destruct i as [|i]; simpl in Hnth; [discriminate|].
    destruct (IH _ _ _ Hnth) as [-> Hlen]. simpl. auto.
Qed.

(** A loop that ends with an error that passes the test has tried
    every encoding. *)
Lemma loop_trace_exhausted formats lastError log error :
  LoopTrace noteId d formats lastError log (Throw error) ->
  is412 error = true ->
  length log = length formats.
Proof.
  intros H. remember (Throw error) as c eqn:Hc. revert error Hc.
  induction H as [le|f rest le n|f rest le e He|f rest le e log c He _ IH];
    intros error Hc Herr.
  - reflexivity.
  - discriminate.
  - injection Hc as ->. congruence.
  - simpl. f_equal. eauto.
Qed.

(** The logs of an update: a first loop, at most one fetch, and a
    second loop after a fetch only. *)
Lemma update_trace_shape etag log c :
  UpdateTrace noteId d etag log c ->
  exists first refetch second,
    log = first ++ refetch ++ second
    /\ forallb isPut first = true /\ length first <= 3
    /\ forallb isGet refetch = true /\ length refetch <= 1
    /\ forallb isPut second = true /\ length second <= 3
    /\ (refetch = [] -> second = [])
    /\ map fst first
       = map (fun f => putRequest noteId f d)
           (firstn (length first) (etagFormats etag))
    /\ (refetch <> [] -> length first = 3).
Proof.
  destruct 1 as [etag log note H|etag log error H He
                |etag log error re H He|etag log error fresh log' c H He H'].
  - exists log, [], []. rewrite app_nil_r.
    pose proof (loop_trace_length _ _ _ _ H).
    pose proof (loop_trace_puts _ _ _ _ H).
    pose proof (loop_trace_requests _ _ _ _ H).
    simpl in *. shape_goals.
  - exists log, [], []. rewrite app_nil_r.
    pose proof (loop_trace_length _ _ _ _ H).
    pose proof (loop_trace_puts _ _ _ _ H).
    pose proof (loop_trace_requests _ _ _ _ H).
    simpl in *. shape_goals.
  - exists log, [(getRequest noteId, Throw re)], [].
    pose proof (loop_trace_exhausted _ _ _ _ H He).
    pose proof (loop_trace_puts _ _ _ _ H).
    pose proof (loop_trace_requests _ _ _ _ H).
    simpl in *. shape_goals.
  - exists log, [(getRequest noteId, Return fresh)], log'.
    pose proof (loop_trace_exhausted _ _ _ _ H He).
    pose proof (loop_trace_puts _ _ _ _ H).
    pose proof (loop_trace_requests _ _ _ _ H).
    pose proof (loop_trace_length _ _ _ _ H').
    pose proof (loop_trace_puts _ _ _ _ H').
    simpl in *. shape_goals.
Qed.


(** In the log of an update, an update request that succeeds is the
    last request, and its note is the outcome. *)
Lemma update_trace_return_last etag log c :
  UpdateTrace noteId d etag log c ->
  forall i config note,
    nth_error log i = Some (config, Return note) ->
    method config = PUT ->
    c = Return note /\ length log = S i.
Proof.
  destruct 1 as [etag log note0 H|etag log error0 H He
                |etag log error0 re H He|etag log error0 fresh log' c H He H'];
    intros i config note Hnth Hput.
  - exact (loop_trace_return_last _ _ _ _ H _ _ _ Hnth).
  - exact (loop_trace_return_last _ _ _ _ H _ _ _ Hnth).
  - destruct (Nat.lt_ge_cases i (length log)) as [Hi|Hi].
    + rewrite nth_error_app1 in Hnth by assumption.
      destruct (loop_trace_return_last _ _ _ _ H _ _ _ Hnth) as [E _].
      discriminate.
    + rewrite nth_error_app2 in Hnth by assumption.
      destruct (i - length log) as [|[|k]]; simpl in Hnth; discriminate.
  - destruct (Nat.lt_ge_cases i (length log)) as [Hi|Hi].
    + rewrite nth_error_app1 in Hnth by assumption.
      destruct (loop_trace_return_last _ _ _ _ H _ _ _ Hnth) as [E _].
      discriminate.
    + rewrite nth_error_app2 in Hnth by assumption.
      destruct (i - length log) as [|k] eqn:Ek; simpl in Hnth.
      * injection Hnth as <- _. discriminate.
      * destruct (loop_trace_return_last _ _ _ _ H' _ _ _ Hnth)
          as [-> Hlen].
        split; [reflexivity|]. rewrite length_app. simpl. lia.
Qed.

End TraceFacts.
End NotesFacts.

(** *** The claims on the conditional update *)
Section NotesClaims.
Import Notes NotesFacts.

Context {Service : Type}.
Variable makeRequest :
    RequestConfig -> Service -> Completion Note * Service.
Variable noteId : nat.
Variable d : NoteData.



(** C2: the encodings are tried in one order, the tag as given, then
    the tag with one double quote (the character of code 34) in front
    and one behind, then the characters of the tag that are no double
    quotes, in their order: the first three requests of an update are updates with the
    first encodings of that list; a successful update request is the
    last request and its note is returned; and when the service rejects
    the raw form with a precondition failure and accepts the quoted
    form, the update returns after these two requests, without a fetch
    and without a second attempt. *)
Theorem encodings_tried_in_order :
  forall (etag : string),
    etagFormats etag
    = [ etag;
        String "034"%char (etag ++ String "034"%char EmptyString);
        string_of_list_ascii
          (filter (fun c => negb (Ascii.eqb c "034"%char))
             (list_ascii_of_string etag)) ]
    /\ (forall (s : Service),
          let run := updateNote makeRequest noteId etag d (s, []) in
          (exists n,
             map fst (firstn 3 (snd (snd run)))
             = map (fun f => putRequest noteId f d)
                 (firstn n (etagFormats etag)))
          /\ (forall i config note,
                nth_error (snd (snd run)) i = Some (config, Return note) ->
                method config = PUT ->
                fst run = Return note /\ length (snd (snd run)) = S i))
    /\ (forall (s s1 s2 : Service) (error : Thrown) (note : Note),
          let quoted :=
            String "034"%char (etag ++ String "034"%char EmptyString) in
          makeRequest (putRequest noteId etag d) s = (Throw error, s1) ->
          is412 error = true ->
          makeRequest (putRequest noteId quoted d) s1 = (Return note, s2) ->
          updateNote makeRequest noteId etag d (s, [])
          = (Return note,
             (s2, [(putRequest noteId etag d, Throw error); (putRequest noteId quoted d, Return note)]))).
Proof.
  intros etag. split; [|split].
  - unfold etagFormats. f_equal. f_equal. f_equal.
    apply JsStringFacts.remove_all_filter.
  - intros s run. split.
    + destruct (update_trace_shape noteId d etag _ _
                  (updateNote_trace makeRequest noteId d etag s))
        as (first & refetch & second & Hlog & _ & Hlen & _ & _ & _ & _
            & Hnil & Hreq & Hthree).
      fold run in Hlog. exists (length first). rewrite Hlog.
      destruct refetch as [|g refetch].
      * rewrite (Hnil eq_refl), !app_nil_r.
        rewrite firstn_all2 by assumption. exact Hreq.
      * rewrite firstn_app, firstn_all2 by assumption.
        rewrite Hthree by discriminate. rewrite Nat.sub_diag.
        rewrite firstn_0, app_nil_r.
        rewrite <- Hthree by discriminate. exact Hreq.
    + intros i config note Hnth Hput.
      exact (update_trace_return_last noteId d etag _ _
               (updateNote_trace makeRequest noteId d etag s)
               i config note Hnth Hput).
  - intros s s1 s2 error note quoted H1 Herr H2.
    rewrite updateNote_eq. unfold etagFormats.
    change (JsString.quoted etag) with quoted.
    rewrite etagLoop_step. cbv zeta. rewrite H1. cbn [fst snd].
    rewrite Herr.
    rewrite etagLoop_step. cbv zeta. rewrite H2. reflexivity.
Qed.

(** C3: an update makes at most two attempts, the first one and at most
    one after a fetch, of at most three update requests each: its log is
    a first run of at most three updates, then at most one fetch, then
    (after a fetch only) a second run of at most three updates; so at
    most six updates and one fetch are sent.  The recursion ends because
    the recursive call is made with the retry count 1, for which
    nothing is left of the recovery, and with a retry count other than 0
    the update is the encoding loop alone. *)
Theorem update_attempts_bounded :
  forall (etag : string) (s : Service),
    let log := snd (snd (updateNote makeRequest noteId etag d (s, []))) in
    (exists first refetch second,
        log = first ++ refetch ++ second
        /\ forallb isPut first = true /\ length first <= 3
        /\ forallb isGet refetch = true /\ length refetch <= 1
        /\ forallb isPut second = true /\ length second <= 3
        /\ (refetch = [] -> second = []))
    /\ length (filter isPut log) <= 6
    /\ length (filter isGet log) <= 1
    /\ recoveries_left 1 < recoveries_left 0
    /\ (forall (retryCount : nat) (w : World),
          retryCount <> 0 ->
          updateNoteWithRetry makeRequest noteId etag d retryCount w
          = etagLoop makeRequest noteId d (etagFormats etag) js_null w).
Proof.
  intros etag s log.
  destruct (update_trace_shape noteId d etag _ _
              (updateNote_trace makeRequest noteId d etag s))
    as (first & refetch & second & Hlog & Hp1 & Hl1 & Hg & Hlg & Hp2 & Hl2
        & Hnil & _ & _).
  fold log in Hlog.
  assert (Hput : forall l, forallb isPut l = true ->
                 filter isPut l = l /\ filter isGet l = []).
  { induction l as [|x l IH]; simpl; [auto|].
    intros H. apply andb_true_iff in H as [Hx Hl].
    destruct (IH Hl) as [E1 E2]. rewrite Hx, E1, E2.
    unfold isPut, isGet in *. destruct (method (fst x)); try discriminate.
    auto. }
  assert (Hget : forall l, forallb isGet l = true ->
                 filter isGet l = l /\ filter isPut l = []).
  { induction l as [|x l IH]; simpl; [auto|].
    intros H. apply andb_true_iff in H as [Hx Hl].
    destruct (IH Hl) as [E1 E2]. rewrite Hx, E1, E2.
    unfold isPut, isGet in *. destruct (method (fst x)); try discriminate.
    auto. }
  destruct (Hput _ Hp1) as [A1 A2]. destruct (Hput _ Hp2) as [B1 B2].
  destruct (Hget _ Hg) as [C1 C2].
  split; [|split; [|split; [|split]]].
  - exists first, refetch, second. shape_goals.
  - rewrite Hlog, !filter_app, A1, B1, C2, !length_app. simpl. lia.
  - rewrite Hlog, !filter_app, A2, B2, C1, !length_app. simpl. lia.
  - simpl. lia.
  - intros retryCount w H.
    now apply updateNoteWithRetry_no_recovery.
Qed.


(** C10: for a tag without a double quote, removing the double quotes
    changes nothing: the third encoding is the first one again, only
    two different encodings (raw and quoted) are in the list, and the
    third request of an update, when it is sent, is the first request
    once more. *)
Theorem third_encoding_repeats_the_first :
  forall (etag : string),
    JsString.mem JsString.dquote etag = false ->
    let quoted :=
      JsString.quoted etag in
    etagFormats etag = [etag; quoted; etag]
    /\ nth_error (etagFormats etag) 2 = nth_error (etagFormats etag) 0
    /\ Forall (fun f => f = etag \/ f = quoted) (etagFormats etag)
    /\ (forall (s : Service) (third : Exchange),
          let log := snd (snd (updateNote makeRequest noteId etag d (s, []))) in
          nth_error log 2 = Some third ->
          fst third = putRequest noteId etag d
          /\ exists first, nth_error log 0 = Some first
                           /\ fst first = fst third).
Proof.
  intros etag Hmem quoted.
  assert (E : etagFormats etag = [etag; quoted; etag]).
  { unfold etagFormats. now rewrite JsStringFacts.remove_all_absent. }
  split; [exact E|]. split; [now rewrite E|]. split.
  - rewrite E.
    repeat (apply Forall_cons; [auto|]). apply Forall_nil.
  - intros s third log Hthird.
    destruct (update_trace_shape noteId d etag _ _
                (updateNote_trace makeRequest noteId d etag s))
      as (first & refetch & second & Hlog & _ & Hlen & _ & _ & _ & _
          & Hnil & Hreq & Hthree).
    fold log in Hlog. rewrite E in Hreq.
    assert (Hfirst : length first = 3).
    { destruct refetch as [|g refetch]; [|apply Hthree; discriminate].
      rewrite (Hnil eq_refl), !app_nil_r in Hlog. subst log.
      assert (Hlt : 2 < length first)
        by (apply nth_error_Some; congruence).
      lia. }
    rewrite Hfirst in Hreq.
    destruct first as [|x1 [|x2 [|x3 [|x4 first]]]]; try discriminate.
    rewrite Hlog in *. simpl in *. injection Hthird as <-.
    injection Hreq as H1 H2 H3. split; [exact H3|].
    exists x1. split; [reflexivity|congruence].
Qed.

End NotesClaims.

(** *** Examples and the surfaced error of a failed recovery *)
Section NotesRecovery.
Import Notes NotesFacts.

Context {Service : Type}.
Variable makeRequest :
  RequestConfig -> Service -> Completion Note * Service.
Variable noteId : nat.
Variable d : NoteData.

(** When the fetch of the recovery throws, the update throws the error
    that ended its first attempt, and what the fetch threw is dropped. *)
Lemma refresh_failure_surfaces_original
    (etag : string) (w w1 w2 : World) (error refreshError : Thrown) :
  etagLoop makeRequest noteId d (etagFormats etag) js_null w
  = (Throw error, w1) ->
  is412 error = true ->
  getNote makeRequest noteId w1 = (Throw refreshError, w2) ->
  updateNote makeRequest noteId etag d w = (Throw error, w2).
Proof.
  intros H1 He H2. rewrite updateNote_eq, H1, He, H2. reflexivity.
Qed.

(** When the fetch succeeds, the outcome of the update is the outcome of
    the second attempt, whatever it is: the promise of the recursive
    call is returned from the [try] block without being awaited in it. *)
Lemma retry_outcome_is_surfaced
    (etag : string) (w w1 w2 : World) (error : Thrown) (freshNote : Note) :
  etagLoop makeRequest noteId d (etagFormats etag) js_null w
  = (Throw error, w1) ->
  is412 error = true ->
  getNote makeRequest noteId w1 = (Return freshNote, w2) ->
  updateNote makeRequest noteId etag d w
  = etagLoop makeRequest noteId d (etagFormats (Notes.etag freshNote))
      js_null w2.
Proof.
  intros H1 He H2. rewrite updateNote_eq, H1, He, H2. reflexivity.
Qed.

End NotesRecovery.

(** C4, as the code has it: against a service that refuses the three
    encodings of the stale tag and, after a successful fetch, the three
    encodings of the fresh tag, each time with a precondition failure, the
    update throws the error of the sixth update request, the last of the
    second attempt, and not the error that ended the first attempt (the
    third one), which is the one the claim names. *)
Theorem retry_failure_surfaces_the_retry_error :
  let run :=
    Notes.updateNote Notes.scripted 7 "T0" Notes.contentUpdate
      (Notes.alwaysStale, []) in
  let firstAttempt :=
    Notes.etagLoop Notes.scripted 7 Notes.contentUpdate
      (Notes.etagFormats "T0") js_null (Notes.alwaysStale, []) in
  fst firstAttempt = Notes.preconditionFailed "(3)"
  /\ fst run = Notes.preconditionFailed "(6)"
  /\ fst run <> fst firstAttempt
  /\ length (snd (snd run)) = 7.
Proof.
  vm_compute. repeat split. discriminate.
Qed.

(** The seven requests of that run: the bound of six updates and one
    fetch is reached. *)
Example always_stale_requests :
  map (fun x => (Notes.method (fst x), Notes.if_match (fst x)))
    (snd (snd (Notes.updateNote Notes.scripted 7 "T0" Notes.contentUpdate
                 (Notes.alwaysStale, []))))
  = [ (Notes.PUT, Some "T0");
      (Notes.PUT,
       Some (JsString.quoted "T0"));
      (Notes.PUT, Some "T0");
      (Notes.GET, None);
      (Notes.PUT, Some "T1");
      (Notes.PUT,
       Some (JsString.quoted "T1"));
      (Notes.PUT, Some "T1") ].
Proof. reflexivity. Qed.


(** The scenario of the specification: an update with the stale tag T0
    of a note whose tag is T1 is refused three times, the note is
    fetched, and the update with the quoted fresh tag is accepted. *)
Example stale_tag_recovered :
  fst (Notes.updateNote Notes.quotedOnly 7 "T0" Notes.contentUpdate
         (Notes.editedNote, []))
  = Return (Notes.mkNote 7 "A" "z" "c" "T1'").
Proof. reflexivity. Qed.


Lemma encodings_tried_in_order_witness :
  Notes.updateNote Notes.quotedOnly 7 "T0" Notes.contentUpdate
    (Notes.firstNote, [])
  = (Return (Notes.mkNote 7 "A" "z" "c" "T0'"),
     (Notes.mkNote 7 "A" "z" "c" "T0'",
      [ (Notes.putRequest 7 "T0" Notes.contentUpdate,
         Throw (ErrorObj "Request failed with status code 412"));
        (Notes.putRequest 7
           (String "034"%char (String "T" (String "0"
              (String "034"%char EmptyString))))
           Notes.contentUpdate,
         Return (Notes.mkNote 7 "A" "z" "c" "T0'")) ]))
  /\ Notes.etagFormats Notes.weakTag
     = [ String "W" (String "/" (String "034"%char (String "a" (String "b"
           (String "034"%char EmptyString)))));
         String "034"%char (String "W" (String "/" (String "034"%char
           (String "a" (String "b" (String "034"%char
              (String "034"%char EmptyString)))))));
         "W/ab"%string ].
Proof.
  split.
  - apply (proj2 (proj2 (encodings_tried_in_order Notes.quotedOnly 7
                           Notes.contentUpdate "T0"))
             Notes.firstNote Notes.firstNote);
      reflexivity.
  - exact (proj1 (encodings_tried_in_order Notes.quotedOnly 7
                    Notes.contentUpdate Notes.weakTag)).
Defined.

Lemma update_attempts_bounded_witness :
  let log :=
    snd (snd (Notes.updateNote Notes.scripted 7 "T0" Notes.contentUpdate
                (Notes.alwaysStale, []))) in
  length (filter Notes.isPut log) <= 6
  /\ length (filter Notes.isGet log) <= 1
  /\ Notes.updateNoteWithRetry Notes.scripted 7 "T0" Notes.contentUpdate 1
       (Notes.alwaysStale, [])
     = Notes.etagLoop Notes.scripted 7 Notes.contentUpdate
         (Notes.etagFormats "T0") js_null (Notes.alwaysStale, []).
Proof.
  destruct (update_attempts_bounded Notes.scripted 7 Notes.contentUpdate
              "T0" Notes.alwaysStale) as (_ & Hput & Hget & _ & Hloop).
  split; [exact Hput|]. split; [exact Hget|].
  apply Hloop. discriminate.
Defined.


Lemma third_encoding_repeats_the_first_witness :
  Notes.etagFormats "T0"
  = [ "T0"; JsString.quoted "T0"; "T0" ].
Proof.
  apply (third_encoding_repeats_the_first Notes.scripted 7
           Notes.contentUpdate "T0").
  reflexivity.
Defined.

(** ** Numbers *)
Module JsNumberFacts.
Import JsNumber.

(** Counting is exact as long as the result has a magnitude of at most
    2^53. *)
Lemma succ_exact (n : Z) :
  (- two53 <= n < two53)%Z -> succ n = (n + 1)%Z.
Proof.
  intros H. unfold succ, round.
  destruct (Z.eq_dec (n + 1) two53) as [E|E].
  - rewrite E. reflexivity.
  - assert (L : (Z.abs (n + 1) <? two53)%Z = true)
      by (apply Z.ltb_lt; lia).
    cbv zeta. now rewrite L.
Qed.


(** From 0 a counter goes up by one until it stays at 2^53. *)
Lemma succ_capped (n : Z) :
  (0 <= n <= two53)%Z -> succ n = Z.min (n + 1) two53.
Proof.
  intros H. destruct (Z.eq_dec n two53) as [->|E].
  - reflexivity.
  - rewrite succ_exact by (unfold two53 in *; lia). unfold two53 in *. lia.
Qed.

End JsNumberFacts.

(** ** Objects used as counters *)
Module JsObjectFacts.
Import JsObject.

Lemma get_update_same (k : string) (v : Value) (o : Obj) :
  get k o <> None -> get k (update k v o) = Some v.
Proof.
  induction o as [|[k' v'] o IH]; simpl; [congruence|].
  destruct (String.eqb k' k) eqn:E; simpl; rewrite E; auto.
Qed.

Lemma get_update_other (k k' : string) (v : Value) (o : Obj) :
  k' <> k -> get k' (update k v o) = get k' o.
Proof.
  intros Hk. induction o as [|[k0 v0] o IH]; simpl; [reflexivity|].
  destruct (String.eqb k0 k) eqn:E; simpl.
  - apply String.eqb_eq in E. subst k0.
    destruct (String.eqb k k') eqn:E'; [|reflexivity].
    apply String.eqb_eq in E'. congruence.
  - now rewrite IH.
Qed.

Lemma get_insert_index_same (n : N) (k : string) (v : Value) (o : Obj) :
  get k o = None -> get k (insert_index n k v o) = Some v.
Proof.
  induction o as [|[k' v'] o IH]; simpl.
  - now rewrite String.eqb_refl.
  - destruct (String.eqb k' k) eqn:E; [discriminate|]. intros H.
    destruct (array_index k') as [n'|]; simpl.
    + destruct (n' <? n)%N; simpl.
      * rewrite E. auto.
      * now rewrite String.eqb_refl.
    + now rewrite String.eqb_refl.
Qed.

Lemma get_insert_index_other (n : N) (k k' : string) (v : Value) (o : Obj) :
  k' <> k -> get k' (insert_index n k v o) = get k' o.
Proof.
  intros Hk.
  assert (Hne : String.eqb k k' = false)
    by (apply String.eqb_neq; congruence).
  induction o as [|[k0 v0] o IH]; simpl.
  - now rewrite Hne.
  - destruct (array_index k0) as [n'|]; simpl.
    + destruct (n' <? n)%N; simpl.
      * now rewrite IH.
      * now rewrite Hne.
    + now rewrite Hne.
Qed.

Lemma get_app_same (k : string) (v : Value) (o : Obj) :
  get k o = None -> get k (o ++ [(k, v)]) = Some v.
Proof.
  induction o as [|[k' v'] o IH]; simpl.
  - now rewrite String.eqb_refl.
  - destruct (String.eqb k' k); [discriminate|auto].
Qed.

Lemma get_app_other (k k' : string) (v : Value) (o : Obj) :
  k' <> k -> get k' (o ++ [(k, v)]) = get k' o.
Proof.
  intros Hk. induction o as [|[k0 v0] o IH]; simpl.
  - destruct (String.eqb k k') eqn:E; [|reflexivity].
    apply String.eqb_eq in E. congruence.
  - now rewrite IH.
Qed.

(** After [set], the property has the value. *)
Lemma get_set_same (k : string) (v : Value) (o : Obj) :
  get k (set k v o) = Some v.
Proof.
  unfold set. destruct (get k o) as [x|] eqn:E.
  - apply get_update_same. congruence.
  - destruct (array_index k).
    + now apply get_insert_index_same.
    + now apply get_app_same.
Qed.

(** [set] leaves the other properties as they are. *)
Lemma get_set_other (k k' : string) (v : Value) (o : Obj) :
  k' <> k -> get k' (set k v o) = get k' o.
Proof.
  intros Hk. unfold set. destruct (get k o) as [x|].
  - now apply get_update_other.
  - destruct (array_index k).
    + now apply get_insert_index_other.
    + now apply get_app_other.
Qed.

(** An assignment leaves the other properties as they are. *)
Lemma get_assign_other (k k' : string) (v : Value) (o : Obj) :
  k' <> k -> get k' (assign k v o) = get k' o.
Proof.
  intros Hk. unfold assign. destruct (get k o) as [x|].
  - now apply get_update_other.
  - destruct (String.eqb k "__proto__"); [reflexivity|].
    now apply get_set_other.
Qed.

(** After an assignment the property has the value, unless the key is
    [__proto__] and the object has no such property of its own. *)
Lemma get_assign_same (k : string) (v : Value) (o : Obj) :
  get k o <> None \/ k <> "__proto__" ->
  get k (assign k v o) = Some v.
Proof.
  intros H. unfold assign. destruct (get k o) as [x|] eqn:E.
  - apply get_update_same. congruence.
  - destruct H as [H|H]; [congruence|].
    apply String.eqb_neq in H. rewrite H. apply get_set_same.
Qed.

(** Counting under a key leaves the other keys as they are. *)
Lemma get_increment_other (k k' : string) (o : Obj) :
  k' <> k -> get k' (increment k o) = get k' o.
Proof. intros Hk. unfold increment. now apply get_assign_other. Qed.

Lemma increment_other (k k' : string) (o : Obj) :
  k' <> k -> get_or_zero k' (increment k o) = get_or_zero k' o.
Proof.
  intros Hk. unfold get_or_zero. now rewrite get_increment_other.
Qed.

Lemma inherited_not_proto (k : string) :
  inherited k = false -> k <> "__proto__".
Proof.
  unfold inherited. intros H ->. discriminate.
Qed.

(** Under a key that [Object.prototype] does not have, a number or
    nothing becomes the next number. *)
Lemma get_increment_count (k : string) (o : Obj) :
  inherited k = false -> is_count k o ->
  get k (increment k o) = Some (Num (JsNumber.succ (get_or_zero k o))).
Proof.
  intros Hk Hc. unfold increment, read, get_or_zero.
  destruct Hc as [E|[n E]]; rewrite E.
  - rewrite Hk. simpl plus_one.
    rewrite get_assign_same by (right; now apply inherited_not_proto).
    reflexivity.
  - simpl plus_one. rewrite get_assign_same by (left; congruence).
    reflexivity.
Qed.

Lemma increment_same (k : string) (o : Obj) :
  inherited k = false -> is_count k o ->
  get_or_zero k (increment k o) = JsNumber.succ (get_or_zero k o).
Proof.
  intros Hk Hc. unfold get_or_zero at 1.
  now rewrite get_increment_count.
Qed.



(** An assignment adds one property at most. *)
Lemma length_update (k : string) (v : Value) (o : Obj) :
  length (update k v o) = length o.
Proof.
  induction o as [|[k' v'] o IH]; simpl; [reflexivity|].
  destruct (String.eqb k' k); simpl; auto.
Qed.

Lemma length_insert_index (n : N) (k : string) (v : Value) (o : Obj) :
  length (insert_index n k v o) = S (length o).
Proof.
  induction o as [|[k' v'] o IH]; simpl; [reflexivity|].
  destruct (array_index k'); [destruct (n0 <? n)%N|]; simpl; auto.
Qed.

Lemma length_set (k : string) (v : Value) (o : Obj) :
  length (set k v o) <= S (length o).
Proof.
  unfold set. destruct (get k o).
  - rewrite length_update. lia.
  - destruct (array_index k).
    + rewrite length_insert_index. lia.
    + rewrite length_app. simpl. lia.
Qed.

Lemma length_from_entries_acc (l : list (string * Value)) (acc : Obj) :
  length (fold_left (fun acc kv => set (fst kv) (snd kv) acc) l acc)
  <= length l + length acc.
Proof.
  revert acc. induction l as [|kv l IH]; intros acc; simpl; [lia|].
  specialize (IH (set (fst kv) (snd kv) acc)).
  pose proof (length_set (fst kv) (snd kv) acc). lia.
Qed.

(** An object built from entries has no more properties than there are
    entries. *)
Lemma length_from_entries (l : list (string * Value)) :
  length (from_entries l) <= length l.
Proof.
  unfold from_entries. pose proof (length_from_entries_acc l []).
  simpl in *. lia.
Qed.

End JsObjectFacts.

(** ** The counters of the requests *)
Module AnalyticsFacts.
Import Analytics.

Lemma trackRequest_endpoint_same now req endpoint a :
  JsObject.inherited endpoint = false ->
  JsObject.is_count endpoint (requestsByEndpoint a) ->
  JsObject.get_or_zero endpoint
    (requestsByEndpoint (trackRequest now req endpoint a))
  = JsNumber.succ (JsObject.get_or_zero endpoint (requestsByEndpoint a)).
Proof. intros. simpl. now apply JsObjectFacts.increment_same. Qed.







(** *** The ring of the recent tool calls *)

Lemma firstn_app_firstn {A} (n : nat) (l m : list A) :
  firstn n (l ++ firstn n m) = firstn n (l ++ m).
Proof.
  rewrite !firstn_app, firstn_firstn.
  now replace (Nat.min (n - length l) n) with (n - length l) by lia.
Qed.

(** One call: the new entry goes first, and the ring is cut to 100. *)
Lemma trackToolCall_recent now toolName ip a :
  length (recentToolCalls a) <= 100 ->
  recentToolCalls (trackToolCall now toolName ip a)
  = firstn 100 (mkToolCall toolName now ip :: recentToolCalls a).
Proof.
  intros H. unfold trackToolCall, JsArray.unshift, JsArray.pop.
  cbn [recentToolCalls length].
  destruct (100 <? S (length (recentToolCalls a)))%nat eqn:E.
  - apply Nat.ltb_lt in E.
    rewrite removelast_firstn_len. cbn [length].
    now replace (Nat.pred (S (length (recentToolCalls a)))) with 100 by lia.
  - apply Nat.ltb_ge in E. symmetry. apply firstn_all2. cbn [length]. lia.
Qed.

Lemma trackToolCalls_recent calls :
  forall a,
    length (recentToolCalls a) <= 100 ->
    recentToolCalls (trackToolCalls calls a)
    = firstn 100 (rev (map entryOf calls) ++ recentToolCalls a).
Proof.
  unfold trackToolCalls.
  induction calls as [|[[now toolName] ip] calls IH]; intros a H.
  - cbn [fold_left map rev app]. symmetry. now apply firstn_all2.
  - cbn [fold_left fst snd map rev].
    pose proof (trackToolCall_recent now toolName ip a H) as Hstep.
    rewrite IH by (rewrite Hstep, length_firstn; lia).
    rewrite Hstep, firstn_app_firstn, <- app_assoc. reflexivity.
Qed.

(** C7: the ring of the recent tool calls.  From a state whose ring has
    at most 100 entries, after any sequence of [trackToolCall] the ring
    is made of the first 100 of: the entries of the calls, the newest
    first, followed by the entries it had; so it has at most 100
    entries, the most recent ones, the newest first, and exactly 100
    after 101 calls. *)
Theorem recent_tool_calls_ring :
  forall (calls : list ToolCallArgs) (a : Analytics),
    length (recentToolCalls a) <= 100 ->
    let a' := trackToolCalls calls a in
    recentToolCalls a'
    = firstn 100 (rev (map entryOf calls) ++ recentToolCalls a)
    /\ length (recentToolCalls a') <= 100
    /\ (length calls = 101 -> length (recentToolCalls a') = 100).
Proof.
  intros calls a H a'. subst a'.
  rewrite trackToolCalls_recent by assumption.
  split; [reflexivity|]. rewrite length_firstn. split; [lia|].
  intros Hn. rewrite length_app, length_rev, length_map. lia.
Qed.

End AnalyticsFacts.



Lemma recent_tool_calls_ring_witness :
  length
    (Analytics.recentToolCalls
       (Analytics.trackToolCalls
          (repeat ("2024-05-01T10:00:00.000Z", "create_note", "1.2.3.4") 101)
          (Analytics.defaultAnalytics "2024-05-01T09:00:00.000Z")))
  = 100.
Proof.
  apply (AnalyticsFacts.recent_tool_calls_ring
           (repeat ("2024-05-01T10:00:00.000Z", "create_note", "1.2.3.4") 101)
           (Analytics.defaultAnalytics "2024-05-01T09:00:00.000Z")).
  - simpl. lia.
  - reflexivity.
Defined.

(** ** The persistence of the analytics *)
Module PersistenceFacts.
Import Analytics Persistence.

Section Files.
Context {FS : Type}.
Variable existsSync : string -> FS -> bool.
Variable readFileSync : string -> FS -> Completion string * FS.
Variable mkdirSync : string -> FS -> Completion unit * FS.
Variable writeFileSync : string -> string -> FS -> Completion unit * FS.
Variable dirname : string -> string.
Variable JSON_parse : string -> Completion Analytics.
Variable JSON_stringify : Analytics -> Completion string.
Variable ANALYTICS_FILE : string.
Variable startTime : string.

Local Notation "'load'" :=
  (loadAnalytics existsSync readFileSync JSON_parse ANALYTICS_FILE
     startTime).
Local Notation "'save'" :=
  (saveAnalytics existsSync mkdirSync writeFileSync dirname JSON_stringify
     ANALYTICS_FILE).

(** Saving returns, whatever the file system does. *)
Lemma saveAnalytics_returns (a : Analytics) (w : World) :
  fst (save a w) = Return tt.
Proof.
  unfold saveAnalytics, Eff.try_catch, Eff.bind, exists_, onFiles,
    pure, console, Eff.ret.
  cbn [fst snd].
  destruct (existsSync (dirname ANALYTICS_FILE) (fst w)); cbn [negb fst snd].
  - destruct (JSON_stringify a) as [text|e]; [|reflexivity].
    destruct (writeFileSync ANALYTICS_FILE text (fst w)) as [[[]|e] fs'];
      reflexivity.
  - destruct (mkdirSync (dirname ANALYTICS_FILE) (fst w)) as [[[]|e] fs'];
      cbn [fst snd]; [|reflexivity].
    destruct (JSON_stringify a) as [text|e']; [|reflexivity].
    destruct (writeFileSync ANALYTICS_FILE text fs') as [[[]|e'] fs''];
      reflexivity.
Qed.

(** Loading returns, whatever the file system does. *)
Lemma loadAnalytics_returns (w : World) :
  exists a, fst (load w) = Return a.
Proof.
  unfold loadAnalytics, Eff.try_catch, Eff.bind, exists_, onFiles,
    pure, console, Eff.ret.
  cbn [fst snd].
  destruct (existsSync ANALYTICS_FILE (fst w)); cbn [fst snd];
    [|eexists; reflexivity].
  destruct (readFileSync ANALYTICS_FILE (fst w)) as [[data|e] fs'];
    cbn [fst snd]; [|eexists; reflexivity].
  destruct (JSON_parse data) as [loaded|e]; eexists; reflexivity.
Qed.

(** When the snapshot cannot be read, loading returns the default. *)
Lemma loadAnalytics_default (w : World) :
  snapshotUnreadable existsSync readFileSync JSON_parse ANALYTICS_FILE
    (fst w) ->
  fst (load w) = Return (defaultAnalytics startTime).
Proof.
  unfold snapshotUnreadable, loadAnalytics, Eff.try_catch, Eff.bind,
    exists_, onFiles, pure, console, Eff.ret.
  cbn [fst snd].
  destruct (existsSync ANALYTICS_FILE (fst w)); cbn [fst snd];
    [|reflexivity].
  destruct (readFileSync ANALYTICS_FILE (fst w)) as [[data|e] fs'];
    cbn [fst snd]; [|reflexivity].
  intros [H|[[error H]|(data' & error & H1 & H2)]]; try discriminate.
  injection H1 as <-. rewrite H2. reflexivity.
Qed.

(** C8: the failures of the persistence stay inside it.  Whatever the
    file system does, [saveAnalytics] returns (when something throws in
    it, a warning is written to the console and nothing else happens),
    and so does the handler of the termination signals; [loadAnalytics]
    returns as well, and what it returns when the snapshot cannot be
    read (no file, a file that cannot be read, a text that cannot be
    parsed) is the default state, with all counters at zero. *)
Theorem persistence_failures_are_swallowed :
  forall (a : Analytics) (w : World),
    fst (save a w) = Return tt
    /\ (forall text error fs',
          existsSync (dirname ANALYTICS_FILE) (fst w) = true ->
          JSON_stringify a = Return text ->
          writeFileSync ANALYTICS_FILE text (fst w) = (Throw error, fs') ->
          save a w
          = (Return tt,
             (fs', snd w ++ [ConsoleWarn "Could not save analytics file:"
                               error])))
    /\ fst (onSignal existsSync mkdirSync writeFileSync dirname
              JSON_stringify ANALYTICS_FILE a w) = Return tt
    /\ (exists loaded, fst (load w) = Return loaded)
    /\ (snapshotUnreadable existsSync readFileSync JSON_parse
          ANALYTICS_FILE (fst w) ->
        fst (load w) = Return (defaultAnalytics startTime)).
Proof.
  intros a w. split; [apply saveAnalytics_returns|]. split; [|split; [|split]].
  - intros text error fs' Hdir Htext Hw.
    unfold saveAnalytics, Eff.try_catch, Eff.bind, exists_, onFiles,
      pure, console, Eff.ret.
    cbn [fst snd]. rewrite Hdir. cbn [negb fst snd].
    rewrite Htext, Hw. reflexivity.
  - unfold onSignal, Eff.bind, console.
    apply saveAnalytics_returns.
  - apply loadAnalytics_returns.
  - apply loadAnalytics_default.
Qed.

End Files.
End PersistenceFacts.

Lemma persistence_failures_are_swallowed_witness :
  fst (Persistence.loadAnalytics Persistence.diskExists Persistence.diskRead
         Persistence.toyParse (Persistence.analyticsFile None)
         "2024-05-01T09:00:00.000Z"
         (Persistence.mkDisk (Some "}{") true true false, []))
  = Return (Analytics.defaultAnalytics "2024-05-01T09:00:00.000Z").
Proof.
  apply (proj2 (proj2 (proj2 (proj2
           (PersistenceFacts.persistence_failures_are_swallowed
              Persistence.diskExists Persistence.diskRead
              Persistence.diskMkdir Persistence.diskWrite
              Persistence.toyDirname Persistence.toyParse
              Persistence.toyStringify (Persistence.analyticsFile None)
              "2024-05-01T09:00:00.000Z"
              (Analytics.defaultAnalytics "2024-05-01T09:00:00.000Z")
              (Persistence.mkDisk (Some "}{") true true false, [])))))).
  right. right.
  exists "}{", (ErrorObj "Unexpected token } in JSON at position 0").
  split; reflexivity.
Defined.

(** A full disk: the save is given up with a warning, and returns. *)
Example save_on_full_disk :
  Persistence.saveAnalytics Persistence.diskExists Persistence.diskMkdir
    Persistence.diskWrite Persistence.toyDirname Persistence.toyStringify
    (Persistence.analyticsFile None)
    (Analytics.defaultAnalytics "2024-05-01T09:00:00.000Z")
    (Persistence.mkDisk None true true true, [])
  = (Return tt,
     (Persistence.mkDisk None true true true,
      [Persistence.ConsoleWarn "Could not save analytics file:"
         (ErrorObj "ENOSPC: no space left on device")])).
Proof. reflexivity. Qed.

(** ** Sorting *)
Module JsArrayFacts.
Import JsArray.

Section Sort.
Context {A : Type}.
Variable compareFn : A -> A -> Z.

Lemma insert_perm (x : A) (l : list A) :
  Permutation (insert compareFn x l) (x :: l).
Proof.
  induction l as [|y l IH]; simpl; [reflexivity|].
  destruct (0 <? compareFn x y)%Z; [|reflexivity].
  rewrite IH. apply perm_swap.
Qed.

(** Sorting rearranges the array. *)
Lemma sort_perm (l : list A) : Permutation (sort compareFn l) l.
Proof.
  induction l as [|x l IH]; simpl; [reflexivity|].
  rewrite insert_perm. now constructor.
Qed.

Lemma sort_length (l : list A) : length (sort compareFn l) = length l.
Proof. apply Permutation_length, sort_perm. Qed.

(** A consistent comparator: of two elements one may come first, and
    coming first is transitive. *)
Hypothesis compare_total :
  forall x y, (0 < compareFn x y)%Z -> (compareFn y x <= 0)%Z.
Hypothesis compare_trans :
  forall x y z,
    (compareFn x y <= 0)%Z -> (compareFn y z <= 0)%Z ->
    (compareFn x z <= 0)%Z.

Lemma insert_sorted (x : A) (l : list A) :
  StronglySorted (inOrder compareFn) l -> StronglySorted (inOrder compareFn) (insert compareFn x l).
Proof.
  induction 1 as [|y l Hs IH Hy]; simpl.
  - repeat constructor.
  - destruct (0 <? compareFn x y)%Z eqn:E.
    + apply Z.ltb_lt in E. constructor; [exact IH|].
      apply (Permutation_Forall (Permutation_sym (insert_perm x l))).
      constructor; [now apply compare_total|exact Hy].
    + apply Z.ltb_ge in E. constructor.
      * now constructor.
      * constructor; [exact E|].
        rewrite Forall_forall in *. intros z Hz.
        apply compare_trans with y; [exact E|now apply Hy].
Qed.

(** With a consistent comparator the sorted array is in order. *)
Lemma sort_sorted (l : list A) : StronglySorted (inOrder compareFn) (sort compareFn l).
Proof.
  induction l as [|x l IH]; simpl; [constructor|now apply insert_sorted].
Qed.

End Sort.

Section SortOn.
Context {A : Type}.
Variable compareFn : A -> A -> Z.

(** A comparator that is consistent on the elements that satisfy [P]. *)
Variable P : A -> Prop.
Hypothesis compare_total :
  forall x y, P x -> P y ->
              (0 < compareFn x y)%Z -> (compareFn y x <= 0)%Z.
Hypothesis compare_trans :
  forall x y z, P x -> P y -> P z ->
    (compareFn x y <= 0)%Z -> (compareFn y z <= 0)%Z ->
    (compareFn x z <= 0)%Z.

Lemma insert_sorted_on (x : A) (l : list A) :
  P x -> Forall P l ->
  StronglySorted (inOrder compareFn) l ->
  StronglySorted (inOrder compareFn) (insert compareFn x l).
Proof.
  intros Px Pl H. induction H as [|y l Hs IH Hy]; simpl.
  - repeat constructor.
  - inversion Pl as [|? ? Py Pl']; subst.
    destruct (0 <? compareFn x y)%Z eqn:E.
    + apply Z.ltb_lt in E. constructor; [now apply IH|].
      apply (Permutation_Forall (Permutation_sym (insert_perm compareFn x l))).
      constructor; [now apply compare_total|exact Hy].
    + apply Z.ltb_ge in E. constructor.
      * now constructor.
      * constructor; [exact E|].
        rewrite Forall_forall in *. intros z Hz.
        apply compare_trans with y; auto. now apply Hy.
Qed.

(** The sorted array is in order when the comparator is consistent on
    its elements. *)
Lemma sort_sorted_on (l : list A) :
  Forall P l -> StronglySorted (inOrder compareFn) (sort compareFn l).
Proof.
  induction 1 as [|x l Px Pl IH]; simpl; [constructor|].
  apply insert_sorted_on; [exact Px| |exact IH].
  apply (Permutation_Forall (Permutation_sym (sort_perm compareFn l))).
  exact Pl.
Qed.

End SortOn.

Lemma StronglySorted_firstn {A} (R : A -> A -> Prop) (n : nat) (l : list A) :
  StronglySorted R l -> StronglySorted R (firstn n l).
Proof.
  intros H. revert n. induction H as [|x l Hs IH Hx]; intros [|n]; simpl;
    try constructor.
  - apply IH.
  - rewrite Forall_forall in *. intros y Hy. apply Hx.
    rewrite <- (firstn_skipn n l). apply in_or_app. now left.
Qed.

Lemma StronglySorted_rev {A} (R : A -> A -> Prop) (l : list A) :
  StronglySorted R l -> StronglySorted (fun x y => R y x) (rev l).
Proof.
  induction 1 as [|x l Hs IH Hx]; simpl; [constructor|].
  assert (G : forall m, StronglySorted (fun a b => R b a) m ->
              Forall (fun y => R x y) m ->
              StronglySorted (fun a b => R b a) (m ++ [x])).
  { induction 1 as [|y m Hm IHm Hy]; simpl; intros Hall.
    - repeat constructor.
    - constructor.
      + apply IHm. now inversion Hall.
      + apply Forall_app. split; [exact Hy|].
        constructor; [now inversion Hall|constructor]. }
  apply G; [exact IH|].
  rewrite Forall_forall in *. intros y Hy. apply Hx. now apply in_rev.
Qed.

End JsArrayFacts.

(** ** The summary of the analytics *)
Module SummaryFacts.
Import JsObject Analytics.

Lemma get_absent (k : string) (o : Obj) :
  ~ In k (keys o) -> get k o = None.
Proof.
  induction o as [|[k' v'] o IH]; simpl; [reflexivity|].
  intros H. destruct (String.eqb k' k) eqn:E.
  - apply String.eqb_eq in E. tauto.
  - apply IH. tauto.
Qed.

Lemma from_entries_acc (l : list (string * Value)) :
  forall acc : Obj,
    NoDup (keys (acc ++ l)) ->
    Forall (fun k => array_index k = None) (keys l) ->
    fold_left (fun acc kv => set (fst kv) (snd kv) acc) l acc = acc ++ l.
Proof.
  induction l as [|[k v] l IH]; intros acc Hnd Hplain; simpl.
  - now rewrite app_nil_r.
  - inversion Hplain as [|? ? Hk Hl]; subst.
    assert (Hget : get k acc = None).
    { apply get_absent. unfold keys in *. rewrite map_app in Hnd. simpl in Hnd.
      apply NoDup_remove_2 in Hnd. intros Hin. apply Hnd.
      apply in_or_app. now left. }
    unfold set at 2. rewrite Hget, Hk.
    rewrite IH; [now rewrite <- app_assoc| |exact Hl].
    now rewrite <- app_assoc.
Qed.

(** Entries with distinct keys, none of which is an array index, make
    an object that has them in their order. *)
Lemma from_entries_plain (l : list (string * Value)) :
  NoDup (keys l) ->
  Forall (fun k => array_index k = None) (keys l) ->
  from_entries l = l.
Proof. intros Hnd Hplain. unfold from_entries. now rewrite from_entries_acc. Qed.

Lemma byCountDesc_numbers (x y : string * Value) (a b : Z) :
  snd x = Num a -> snd y = Num b -> byCountDesc x y = (b - a)%Z.
Proof. unfold byCountDesc. now intros -> ->. Qed.

(** The entries of an object that holds numbers come out of the sort by
    descending count. *)
Lemma sort_byCountDesc (l : list (string * Value)) :
  numbers l ->
  StronglySorted (fun x y => (number (snd y) <= number (snd x))%Z)
    (JsArray.sort byCountDesc l).
Proof.
  intros Hn.
  assert (H : StronglySorted (JsArray.inOrder byCountDesc)
                (JsArray.sort byCountDesc l)).
  { apply (JsArrayFacts.sort_sorted_on byCountDesc
             (fun kv => exists n, snd kv = Num n)); [| |exact Hn].
    - intros x y [a Ha] [b Hb].
      rewrite (byCountDesc_numbers x y a b), (byCountDesc_numbers y x b a)
        by assumption. lia.
    - intros x y z [a Ha] [b Hb] [c Hc].
      rewrite (byCountDesc_numbers x y a b), (byCountDesc_numbers y z b c),
        (byCountDesc_numbers x z a c) by assumption. lia. }
  assert (Hs : numbers (JsArray.sort byCountDesc l)).
  { apply (Permutation_Forall
             (Permutation_sym (JsArrayFacts.sort_perm byCountDesc l))).
    exact Hn. }
  revert Hs. induction H as [|x m Hm IH Hx]; intros Hs; constructor.
  - apply IH. now inversion Hs.
  - inversion Hs as [|? ? [a Ha] Hm']; subst.
    rewrite Forall_forall in *. intros y Hy.
    destruct (Hm' y Hy) as [b Hb].
    specialize (Hx y Hy). unfold JsArray.inOrder in Hx.
    rewrite (byCountDesc_numbers x y a b) in Hx by assumption.
    rewrite Ha, Hb. simpl. lia.
Qed.


Lemma keys_perm (l m : list (string * Value)) :
  Permutation l m -> Permutation (keys l) (keys m).
Proof. apply Permutation_map. Qed.

Lemma plain_firstn (n : nat) (l : list (string * Value)) :
  NoDup (keys l) ->
  Forall (fun k => array_index k = None) (keys l) ->
  NoDup (keys (firstn n l))
  /\ Forall (fun k => array_index k = None) (keys (firstn n l)).
Proof.
  intros Hnd Hplain. unfold keys in *.
  rewrite <- (firstn_skipn n l), map_app in Hnd, Hplain.
  split.
  - now apply NoDup_app_remove_r in Hnd.
  - now apply Forall_app in Hplain.
Qed.

Section Summary.
Variable localeCompare : string -> string -> Z.

(** The sizes, for every state: at most 20 clients and at most 24
    hours are sent, and at most 20 recent calls. *)
Lemma summary_sizes (a : Analytics) :
  length (byIp (summarize localeCompare a)) <= 20
  /\ length (sum_hourlyRequests (summarize localeCompare a)) <= 24
  /\ length (sum_recentToolCalls (summarize localeCompare a)) <= 20.
Proof.
  cbn [summarize byIp sum_hourlyRequests sum_recentToolCalls].
  unfold sortedClients, last24Hours, JsArray.slice_to, JsArray.reverse.
  split; [|split].
  - etransitivity; [apply JsObjectFacts.length_from_entries|].
    apply firstn_le_length.
  - etransitivity; [apply JsObjectFacts.length_from_entries|].
    rewrite length_rev. apply firstn_le_length.
  - apply firstn_le_length.
Qed.



(** A collation is a total preorder. *)
Hypothesis localeCompare_total :
  forall x y, (0 < localeCompare x y)%Z -> (localeCompare y x <= 0)%Z.
Hypothesis localeCompare_trans :
  forall x y z,
    (localeCompare x y <= 0)%Z -> (localeCompare y z <= 0)%Z ->
    (localeCompare x z <= 0)%Z.

(** When the hour keys are distinct and none is an array index (the
    keys that [trackRequest] writes end with a colon and two zeros),
    the hours that are sent are the first 24 of the entries sorted
    from the greatest key down, reversed: in ascending order of the
    keys, the most recent hour last. *)
Lemma last24Hours_plain (a : Analytics) :
  NoDup (keys (hourlyRequests a)) ->
  Forall (fun k => array_index k = None) (keys (hourlyRequests a)) ->
  sum_hourlyRequests (summarize localeCompare a)
  = rev (firstn 24
           (JsArray.sort (byKeyDesc localeCompare) (hourlyRequests a)))
  /\ StronglySorted
       (fun x y => (localeCompare (fst x) (fst y) <= 0)%Z)
       (sum_hourlyRequests (summarize localeCompare a)).
Proof.
  intros Hnd Hplain. cbn [summarize sum_hourlyRequests].
  unfold last24Hours, entries, JsArray.slice_to, JsArray.reverse.
  set (sorted := JsArray.sort (byKeyDesc localeCompare) (hourlyRequests a)).
  pose proof (keys_perm _ _
                (JsArrayFacts.sort_perm (byKeyDesc localeCompare)
                   (hourlyRequests a))) as Hperm.
  fold sorted in Hperm.
  destruct (plain_firstn 24 sorted) as [Hnd' Hplain'].
  - apply (Permutation_NoDup (Permutation_sym Hperm) Hnd).
  - apply (Permutation_Forall (Permutation_sym Hperm) Hplain).
  - rewrite from_entries_plain.
    + split; [reflexivity|].
      apply (JsArrayFacts.StronglySorted_rev
               (JsArray.inOrder (byKeyDesc localeCompare))).
      apply JsArrayFacts.StronglySorted_firstn.
      apply JsArrayFacts.sort_sorted; unfold byKeyDesc; intros.
      * now apply localeCompare_total.
      * eapply localeCompare_trans; eassumption.
    + unfold keys in *. rewrite map_rev.
      apply (Permutation_NoDup (Permutation_rev _) Hnd').
    + unfold keys in *. rewrite map_rev.
      apply (Permutation_Forall (Permutation_rev _) Hplain').
Qed.

End Summary.

(** *** The hour keys of the reachable states *)

Lemma get_present (k : string) (o : Obj) :
  In k (keys o) -> get k o <> None.
Proof.
  induction o as [|[k' v'] o IH]; simpl; [tauto|].
  intros [->|H].
  - now rewrite String.eqb_refl.
  - destruct (String.eqb k' k); [discriminate|auto].
Qed.

Lemma keys_update (k : string) (v : Value) (o : Obj) :
  keys (update k v o) = keys o.
Proof.
  induction o as [|[k' v'] o IH]; simpl; [reflexivity|].
  destruct (String.eqb k' k); simpl; [reflexivity|now f_equal].
Qed.

Lemma keys_insert_index (n : N) (k : string) (v : Value) (o : Obj) :
  Permutation (keys (insert_index n k v o)) (k :: keys o).
Proof.
  induction o as [|[k' v'] o IH]; simpl; [reflexivity|].
  destruct (array_index k') as [n'|]; [|reflexivity].
  destruct (n' <? n)%N; [|reflexivity].
  simpl. rewrite IH. apply perm_swap.
Qed.

(** An assignment changes the keys by adding the new one at most. *)
Lemma keys_set (k : string) (v : Value) (o : Obj) :
  (get k o <> None /\ keys (set k v o) = keys o)
  \/ (get k o = None /\ Permutation (keys (set k v o)) (k :: keys o)).
Proof.
  unfold set. destruct (get k o) as [x|] eqn:E.
  - left. split; [discriminate|apply keys_update].
  - right. split; [reflexivity|].
    destruct (array_index k).
    + apply keys_insert_index.
    + unfold keys. rewrite map_app. simpl.
      symmetry. apply Permutation_cons_append.
Qed.

Lemma keys_set_NoDup (k : string) (v : Value) (o : Obj) :
  NoDup (keys o) -> NoDup (keys (set k v o)).
Proof.
  intros H. destruct (keys_set k v o) as [[_ E]|[Hnone P]].
  - now rewrite E.
  - apply (Permutation_NoDup (Permutation_sym P)). constructor; [|exact H].
    intros Hin. now apply get_present in Hin.
Qed.

Lemma keys_set_Forall
    (P : string -> Prop) (k : string) (v : Value) (o : Obj) :
  P k -> Forall P (keys o) -> Forall P (keys (set k v o)).
Proof.
  intros Hk H. destruct (keys_set k v o) as [[_ E]|[_ Q]].
  - now rewrite E.
  - apply (Permutation_Forall (Permutation_sym Q)). now constructor.
Qed.

Lemma keys_assign_NoDup (k : string) (v : Value) (o : Obj) :
  NoDup (keys o) -> NoDup (keys (assign k v o)).
Proof.
  intros H. unfold assign. destruct (get k o).
  - now rewrite keys_update.
  - destruct (String.eqb k "__proto__"); [exact H|now apply keys_set_NoDup].
Qed.

Lemma keys_assign_Forall
    (P : string -> Prop) (k : string) (v : Value) (o : Obj) :
  P k -> Forall P (keys o) -> Forall P (keys (assign k v o)).
Proof.
  intros Hk H. unfold assign. destruct (get k o).
  - now rewrite keys_update.
  - destruct (String.eqb k "__proto__"); [exact H|now apply keys_set_Forall].
Qed.

(** Counting under a key keeps the keys distinct, and adds no key other
    than the one that is counted. *)
Lemma keys_increment_NoDup (k : string) (o : Obj) :
  NoDup (keys o) -> NoDup (keys (increment k o)).
Proof. apply keys_assign_NoDup. Qed.

Lemma keys_increment_Forall (P : string -> Prop) (k : string) (o : Obj) :
  P k -> Forall P (keys o) -> Forall P (keys (increment k o)).
Proof. apply keys_assign_Forall. Qed.

Lemma parse_digits_hour (s : string) :
  forall acc, parse_digits acc (s ++ ":00")%string = None.
Proof.
  induction s as [|c s IH]; intros acc; simpl; [reflexivity|].
  destruct (digit_of c); [apply IH|reflexivity].
Qed.

(** An hour key is not an array index. *)
Lemma hourKey_plain (now : string) : array_index (hourKeyOf now) = None.
Proof.
  unfold hourKeyOf. generalize (JsString.substring_to 13 now). intros s.
  destruct s as [|c s]; [reflexivity|].
  change ((String c s ++ ":00")%string) with (String c (s ++ ":00")%string).
  unfold array_index.
  destruct (Ascii.eqb c "0" && negb (String.eqb (s ++ ":00") EmptyString));
    [reflexivity|].
  change (String c (s ++ ":00")%string) with ((String c s ++ ":00")%string).
  now rewrite parse_digits_hour.
Qed.

Lemma inherited_no_colon (k : string) :
  inherited k = true -> JsString.mem ":"%char k = false.
Proof.
  unfold inherited, prototypeFunctions. cbn [existsb]. intros H.
  repeat (apply orb_prop in H; destruct H as [H|H]);
    try (apply String.eqb_eq in H; subst k; reflexivity).
  discriminate.
Qed.

Lemma mem_colon_hour (s : string) :
  JsString.mem ":"%char (s ++ ":00")%string = true.
Proof.
  induction s as [|c s IH]; [reflexivity|].
  simpl. rewrite IH. apply orb_true_r.
Qed.

(** An hour key is not the name of a member that objects inherit. *)
Lemma inherited_hourKey (now : string) : inherited (hourKeyOf now) = false.
Proof.
  destruct (inherited (hourKeyOf now)) eqn:E; [|reflexivity].
  apply inherited_no_colon in E. unfold hourKeyOf in E.
  now rewrite mem_colon_hour in E.
Qed.

(** In a reachable state the hour keys are distinct and none of them is
    an array index. *)
Lemma reachable_hour_keys (startTime : string) (a : Analytics) :
  Reachable startTime a ->
  NoDup (keys (hourlyRequests a))
  /\ Forall (fun k => array_index k = None) (keys (hourlyRequests a)).
Proof.
  induction 1 as [|now req endpoint a _ [IH1 IH2]|now toolName ip a _ IH].
  - simpl. split; constructor.
  - cbn [trackRequest hourlyRequests]. split.
    + now apply keys_increment_NoDup.
    + apply keys_increment_Forall; [apply hourKey_plain|exact IH2].
  - exact IH.
Qed.

(** The hours of the summary of a reachable state: at most 24, in
    ascending order of their keys, the most recent hour last. *)
Lemma reachable_hours_chronological
    (localeCompare : string -> string -> Z)
    (startTime : string) (a : Analytics) :
  (forall x y, (0 < localeCompare x y)%Z -> (localeCompare y x <= 0)%Z) ->
  (forall x y z,
      (localeCompare x y <= 0)%Z -> (localeCompare y z <= 0)%Z ->
      (localeCompare x z <= 0)%Z) ->
  Reachable startTime a ->
  length (sum_hourlyRequests (summarize localeCompare a)) <= 24
  /\ StronglySorted
       (fun x y => (localeCompare (fst x) (fst y) <= 0)%Z)
       (sum_hourlyRequests (summarize localeCompare a)).
Proof.
  intros Htotal Htrans Hreach.
  destruct (reachable_hour_keys startTime a Hreach) as [Hnd Hplain].
  split.
  - apply summary_sizes.
  - now apply last24Hours_plain.
Qed.

(** C6, as the code has it: after two calls of a tool named 7 and one
    call of a tool named 3, the entries are sorted by descending count,
    7 before 3, but the object that the summary sends lists 3 before 7,
    the smaller count first: both names are array indices, and an
    object goes through such keys in ascending numeric order whatever
    the order in which they were added.  The breakdown by tool of that
    summary is not in descending order of frequency. *)
Theorem tool_breakdown_order_lost_for_index_names :
  forall (localeCompare : string -> string -> Z),
    toolCalls numberedTools = [("3", Num 1); ("7", Num 2)]
    /\ JsArray.sort byCountDesc (entries (toolCalls numberedTools))
       = [("7", Num 2); ("3", Num 1)]
    /\ byTool (summarize localeCompare numberedTools)
       = [("3", Num 1); ("7", Num 2)]
    /\ descendingCounts (byTool (summarize localeCompare numberedTools))
       = false.
Proof. intros localeCompare. repeat split. Qed.

End SummaryFacts.

(** ** Runs of the tracker *)

(** Three requests, the last one in an earlier hour than the others (a
    snapshot can hold hours that the process adds to in any order): the
    client address is the first of the forwarded ones, the agent is cut at
    the slash, and the hours of the summary are in ascending order. *)
Example summary_of_three_requests :
  let browser :=
    Analytics.mkRequest "GET" (Some "10.0.0.5,172.16.0.1") (Some "127.0.0.1")
      (Some "Mozilla/5.0") in
  let probe := Analytics.mkRequest "GET" None None None in
  let a :=
    Analytics.trackRequest "2024-05-01T09:59:59.000Z" probe "/health"
      (Analytics.trackRequest "2024-05-01T11:00:00.000Z" browser "/analytics"
         (Analytics.trackRequest "2024-05-01T10:30:00.000Z" browser "/health"
            (Analytics.defaultAnalytics "2024-05-01T09:00:00.000Z"))) in
  let summary := Analytics.summarize Analytics.compareCodes a in
  Analytics.sum_totalRequests summary = 3%Z
  /\ Analytics.byEndpoint summary
     = [("/health", JsObject.Num 2); ("/analytics", JsObject.Num 1)]
  /\ Analytics.byIp summary
     = [("10.0.0.5", JsObject.Num 2); ("unknown", JsObject.Num 1)]
  /\ Analytics.byUserAgent summary
     = [("Mozilla", JsObject.Num 2); ("unknown", JsObject.Num 1)]
  /\ Analytics.sum_hourlyRequests summary
     = [ ("2024-05-01T09:00", JsObject.Num 1);
         ("2024-05-01T10:00", JsObject.Num 1);
         ("2024-05-01T11:00", JsObject.Num 1) ].
Proof. repeat split. Qed.

(** With names that are not array indices the breakdown by tool is by
    descending count. *)
Example breakdown_of_named_tools :
  Analytics.byTool
    (Analytics.summarize Analytics.compareCodes
       (Analytics.trackToolCalls
          [ ("2024-05-01T10:00:00.000Z", "get_note", "1.2.3.4");
            ("2024-05-01T10:01:00.000Z", "create_note", "1.2.3.4");
            ("2024-05-01T10:02:00.000Z", "create_note", "1.2.3.4") ]
          (Analytics.defaultAnalytics "2024-05-01T09:00:00.000Z")))
  = [("create_note", JsObject.Num 2); ("get_note", JsObject.Num 1)].
Proof. reflexivity. Qed.

(** A client that names itself after a member that every object
    inherits: the first request finds the inherited function under the
    key, and what is stored is its text with a 1 appended, and a second 1
    at the next request.  Under the key of the prototype itself nothing
    is stored at all. *)
Example clients_named_after_inherited_members :
  let request from :=
    Analytics.mkRequest "GET" (Some from) None None in
  let start := Analytics.defaultAnalytics "2024-05-01T09:00:00.000Z" in
  let twice :=
    Analytics.trackRequest "2024-05-01T10:31:00.000Z"
      (request "toString") "/health"
      (Analytics.trackRequest "2024-05-01T10:30:00.000Z"
         (request "toString") "/health" start) in
  let hidden :=
    Analytics.trackRequest "2024-05-01T10:30:00.000Z"
      (request "__proto__") "/health" start in
  Analytics.clientsByIp twice = [("toString", JsObject.Printed "toString" 2)]
  /\ JsObject.text_of "toString" 2
     = "function toString() { [native code] }11"%string
  /\ Analytics.clientsByIp hidden = []
  /\ Analytics.totalRequests hidden = 1%Z.
Proof. repeat split. Qed.

(* ===================================================================== *)
(** * Part III: further properties of the code                            *)
(* ===================================================================== *)

(** ** The conditional update, request by request *)
Section NotesRuns.
Import Notes NotesFacts.

Context {Service : Type}.
Variable makeRequest :
    RequestConfig -> Service -> Completion Note * Service.
Variable noteId : nat.
Variable d : NoteData.

(** A loop that ends with an error that passes the test has met such an
    error at every request. *)
Lemma loop_trace_all_412 formats lastError log error :
  LoopTrace noteId d formats lastError log (Throw error) ->
  is412 error = true ->
  Forall (fun x => method (fst x) = PUT
                   /\ exists e, snd x = Throw e /\ is412 e = true) log.
Proof.
  intros H. remember (Throw error) as c eqn:Hc. revert error Hc.
  induction H as [le|f rest le n|f rest le e He|f rest le e log c He _ IH];
    intros error Hc Herr.
  - constructor.
  - discriminate.
  - injection Hc as ->. congruence.
  - constructor; [|eauto]. split; [reflexivity|]. now exists e.
Qed.

(** The error that a loop over at least one encoding throws is the error
    of its last request. *)
Lemma loop_trace_throw_last formats lastError log error :
  LoopTrace noteId d formats lastError log (Throw error) ->
  formats <> [] ->
  exists pre config,
    log = pre ++ [(config, Throw error)] /\ method config = PUT.
Proof.
  intros H. remember (Throw error) as c eqn:Hc. revert error Hc.
  induction H as [le|f rest le n|f rest le e He|f rest le e log c He H IH];
    intros error Hc Hne.
  - congruence.
  - discriminate.
  - injection Hc as ->. now exists [], (putRequest noteId f d).
  - subst c. destruct rest as [|f' rest'].
    + inversion H; subst. now exists [], (putRequest noteId f d).
    + destruct (IH error eq_refl) as (pre & config & -> & Hput);
        [discriminate|].
      now exists ((putRequest noteId f d, Throw e) :: pre), config.
Qed.

(** The note that a loop returns is the answer of its last request. *)
Lemma loop_trace_return_is_last formats lastError log note :
  LoopTrace noteId d formats lastError log (Return note) ->
  exists pre config,
    log = pre ++ [(config, Return note)] /\ method config = PUT.
Proof.
  intros H. remember (Return note) as c eqn:Hc. revert note Hc.
  induction H as [le|f rest le n|f rest le e He|f rest le e log c He H IH];
    intros note Hc.
  - discriminate.
  - injection Hc as ->. now exists [], (putRequest noteId f d).
  - discriminate.
  - destruct (IH note Hc) as (pre & config & -> & Hput).
    now exists ((putRequest noteId f d, Throw e) :: pre), config.
Qed.

(** Every request of a loop is an update of the note with the body of
    the call. *)
Lemma loop_trace_same_target formats lastError log c :
  LoopTrace noteId d formats lastError log c ->
  Forall (fun x => exists f, fst x = putRequest noteId f d) log.
Proof.
  induction 1 as [le|f rest le n|f rest le e He|f rest le e log c He _ IH].
  - constructor.
  - constructor; [now exists f|constructor].
  - constructor; [now exists f|constructor].
  - constructor; [now exists f|exact IH].
Qed.

(** X1: a tag that the service accepts as it is given costs one request:
    the update with the raw tag, whose note is returned. *)
Theorem accepted_tag_costs_one_request :
  forall (etag : string) (s s' : Service) (note : Note),
    makeRequest (putRequest noteId etag d) s = (Return note, s') ->
    updateNote makeRequest noteId etag d (s, [])
    = (Return note, (s', [(putRequest noteId etag d, Return note)])).
Proof.
  intros etag s s' note H.
  rewrite updateNote_eq. unfold etagFormats.
  rewrite etagLoop_step. cbv zeta. rewrite H. reflexivity.
Qed.

(** X2: the note is fetched only as the fourth request, after three
    update requests that were each answered by an error that passes the
    test of the precondition failure. *)
Theorem fetch_only_after_three_failures :
  forall (etag : string) (s : Service) (i : nat) (config : RequestConfig)
         (c : Completion Note),
    let log := snd (snd (updateNote makeRequest noteId etag d (s, []))) in
    nth_error log i = Some (config, c) ->
    method config = GET ->
    i = 3
    /\ Forall (fun x => method (fst x) = PUT
                        /\ exists e, snd x = Throw e /\ is412 e = true)
         (firstn 3 log).
Proof.
  intros etag s i config c log Hnth Hget.
  pose proof (updateNote_trace makeRequest noteId d etag s) as T.
  fold log in T. revert Hnth. generalize dependent log. intros log T.
  generalize dependent (fst (updateNote makeRequest noteId etag d (s, []))).
  intros c0 T Hnth.
  assert (Hloop : forall formats le l c1 j x,
             LoopTrace noteId d formats le l c1 ->
             nth_error l j = Some x -> method (fst x) = PUT).
  { intros formats le l c1 j x H Hj.
    pose proof (loop_trace_same_target _ _ _ _ H) as F.
    rewrite Forall_forall in F.
    destruct (F x (nth_error_In _ _ Hj)) as [f ->]. reflexivity. }
  destruct T as [etag log note H|etag log error0 H He
                |etag log error0 re H He|etag log error0 fresh log' c1 H He H'].
  - pose proof (Hloop _ _ _ _ _ _ H Hnth) as E. simpl in E. congruence.
  - pose proof (Hloop _ _ _ _ _ _ H Hnth) as E. simpl in E. congruence.
  - pose proof (loop_trace_exhausted noteId d _ _ _ _ H He) as Hlen.
    simpl in Hlen.
    destruct (Nat.lt_ge_cases i (length log)) as [Hi|Hi].
    + rewrite nth_error_app1 in Hnth by assumption.
      pose proof (Hloop _ _ _ _ _ _ H Hnth) as E. simpl in E. congruence.
    + rewrite nth_error_app2 in Hnth by assumption.
      destruct (i - length log) as [|[|k]] eqn:Ek; simpl in Hnth;
        try discriminate.
      split; [lia|].
      rewrite firstn_app, firstn_all2 by lia.
      rewrite Hlen, Nat.sub_diag, firstn_0, app_nil_r.
      exact (loop_trace_all_412 _ _ _ _ H He).
  - pose proof (loop_trace_exhausted noteId d _ _ _ _ H He) as Hlen.
    simpl in Hlen.
    destruct (Nat.lt_ge_cases i (length log)) as [Hi|Hi].
    + rewrite nth_error_app1 in Hnth by assumption.
      pose proof (Hloop _ _ _ _ _ _ H Hnth) as E. simpl in E. congruence.
    + rewrite nth_error_app2 in Hnth by assumption.
      destruct (i - length log) as [|k] eqn:Ek; simpl in Hnth.
      * split; [lia|].
        rewrite firstn_app, firstn_all2 by lia.
        rewrite Hlen, Nat.sub_diag, firstn_0, app_nil_r.
        exact (loop_trace_all_412 _ _ _ _ H He).
      * pose proof (Hloop _ _ _ _ _ _ H' Hnth) as E. simpl in E. congruence.
Qed.

(** X3: what an update throws is always the error of one of its update
    requests: never the error of the fetch, and never the initial value
    of [lastError]. *)
Theorem thrown_error_comes_from_an_update_request :
  forall (etag : string) (s : Service) (error : Thrown),
    let run := updateNote makeRequest noteId etag d (s, []) in
    fst run = Throw error ->
    exists i config,
      nth_error (snd (snd run)) i = Some (config, Throw error)
      /\ method config = PUT.
Proof.
  intros etag s error run Hc.
  pose proof (updateNote_trace makeRequest noteId d etag s) as T.
  fold run in T. revert Hc T.
  generalize (snd (snd run)). generalize (fst run). intros c log Hc T.
  subst c.
  assert (Hlast : forall formats l,
             LoopTrace noteId d formats js_null l (Throw error) ->
             formats <> [] ->
             exists i config,
               nth_error l i = Some (config, Throw error)
               /\ method config = PUT).
  { intros formats l H Hne.
    destruct (loop_trace_throw_last _ _ _ _ H Hne) as (pre & config & -> & Hp).
    exists (length pre), config. split; [|exact Hp].
    rewrite nth_error_app2, Nat.sub_diag by lia. reflexivity. }
  inversion T as [|etag0 log0 error0 H He|etag0 log0 error0 re H He
                 |etag0 log0 error0 fresh log' c1 H He H']; subst.
  - apply (Hlast _ _ H). discriminate.
  - destruct (Hlast _ _ H) as (i & config & Hi & Hp); [discriminate|].
    exists i, config. split; [|exact Hp].
    rewrite nth_error_app1; [exact Hi|].
    apply nth_error_Some. congruence.
  - destruct (Hlast _ _ H') as (i & config & Hi & Hp); [discriminate|].
    exists (length log0 + 1 + i), config. split; [|exact Hp].
    rewrite nth_error_app2 by lia.
    replace (length log0 + 1 + i - length log0) with (S i) by lia.
    exact Hi.
Qed.

(** X4: the note that an update returns is the answer of its last
    request, which is an update request: the fetched note is never
    returned in its place. *)
Theorem returned_note_answers_the_last_update_request :
  forall (etag : string) (s : Service) (note : Note),
    let run := updateNote makeRequest noteId etag d (s, []) in
    fst run = Return note ->
    exists pre config,
      snd (snd run) = pre ++ [(config, Return note)]
      /\ method config = PUT.
Proof.
  intros etag s note run Hc.
  pose proof (updateNote_trace makeRequest noteId d etag s) as T.
  fold run in T. revert Hc T.
  generalize (snd (snd run)). generalize (fst run). intros c log Hc T.
  subst c.
  inversion T as [etag0 log0 note0 H| | |etag0 log0 error0 fresh log' c1 H He H'];
    subst.
  - exact (loop_trace_return_is_last _ _ _ _ H).
  - destruct (loop_trace_return_is_last _ _ _ _ H')
      as (pre & config & -> & Hp).
    exists (log0 ++ (getRequest noteId, Return fresh) :: pre), config.
    split; [|exact Hp]. rewrite <- app_assoc. reflexivity.
Qed.

(** X5: every request of an update goes to the address of the note; it
    is an update with the body of the call and an [If-Match] header, or
    the fetch, without body and header.  Nothing is created or deleted. *)
Theorem requests_stay_on_the_note :
  forall (etag : string) (s : Service),
    Forall
      (fun x =>
         url (fst x) = note_url noteId
         /\ ((method (fst x) = PUT /\ data (fst x) = Some d
              /\ if_match (fst x) <> None)
             \/ (method (fst x) = GET /\ data (fst x) = None
                 /\ if_match (fst x) = None)))
      (snd (snd (updateNote makeRequest noteId etag d (s, [])))).
Proof.
  intros etag s.
  pose proof (updateNote_trace makeRequest noteId d etag s) as T.
  revert T.
  generalize (snd (snd (updateNote makeRequest noteId etag d (s, [])))).
  generalize (fst (updateNote makeRequest noteId etag d (s, []))).
  intros c log T.
  assert (Hloop : forall formats le l c1,
             LoopTrace noteId d formats le l c1 ->
             Forall
               (fun x =>
                  url (fst x) = note_url noteId
                  /\ ((method (fst x) = PUT /\ data (fst x) = Some d
                       /\ if_match (fst x) <> None)
                      \/ (method (fst x) = GET /\ data (fst x) = None
                          /\ if_match (fst x) = None))) l).
  { intros formats le l c1 H.
    eapply Forall_impl; [|exact (loop_trace_same_target _ _ _ _ H)].
    intros x [f ->]. simpl. split; [reflexivity|]. left.
    repeat split. discriminate. }
  assert (Hget : forall c1 : Completion Note,
             url (fst (getRequest noteId, c1)) = note_url noteId
             /\ ((method (fst (getRequest noteId, c1)) = PUT
                  /\ data (fst (getRequest noteId, c1)) = Some d
                  /\ if_match (fst (getRequest noteId, c1)) <> None)
                 \/ (method (fst (getRequest noteId, c1)) = GET
                     /\ data (fst (getRequest noteId, c1)) = None
                     /\ if_match (fst (getRequest noteId, c1)) = None))).
  { intros c1. simpl. split; [reflexivity|]. right. repeat split. }
  destruct T as [etag log note H|etag log error0 H He
                |etag log error0 re H He|etag log error0 fresh log' c1 H He H'].
  - exact (Hloop _ _ _ _ H).
  - exact (Hloop _ _ _ _ H).
  - apply Forall_app. split; [exact (Hloop _ _ _ _ H)|].
    constructor; [apply Hget|constructor].
  - apply Forall_app. split; [exact (Hloop _ _ _ _ H)|].
    constructor; [apply Hget|exact (Hloop _ _ _ _ H')].
Qed.

End NotesRuns.

Section NotesRecoveryRuns.
Import Notes NotesFacts.

Context {Service : Type}.
Variable makeRequest :
    RequestConfig -> Service -> Completion Note * Service.
Variable noteId : nat.
Variable d : NoteData.

(** Three refusals in a row exhaust the loop. *)
Lemma etagLoop_three_refusals
    (etag : string) (s s1 s2 s3 : Service) (e1 e2 e3 : Thrown) :
  makeRequest (putRequest noteId etag d) s = (Throw e1, s1) ->
  is412 e1 = true ->
  makeRequest (putRequest noteId (JsString.quoted etag) d) s1
  = (Throw e2, s2) ->
  is412 e2 = true ->
  makeRequest
    (putRequest noteId (JsString.remove_all JsString.dquote etag) d) s2
  = (Throw e3, s3) ->
  is412 e3 = true ->
  forall log,
    etagLoop makeRequest noteId d (etagFormats etag) js_null (s, log)
    = (Throw e3,
       (s3,
        ((log ++ [(putRequest noteId etag d, Throw e1)])
           ++ [(putRequest noteId (JsString.quoted etag) d, Throw e2)])
          ++ [(putRequest noteId
                 (JsString.remove_all JsString.dquote etag) d, Throw e3)])).
Proof.
  intros H1 He1 H2 He2 H3 He3 log. unfold etagFormats.
  rewrite etagLoop_step. cbv zeta. rewrite H1. cbn [fst snd]. rewrite He1.
  rewrite etagLoop_step. cbv zeta. rewrite H2. cbn [fst snd]. rewrite He2.
  rewrite etagLoop_step. cbv zeta. rewrite H3. cbn [fst snd]. rewrite He3.
  reflexivity.
Qed.

(** X6: when the three encodings are refused with a precondition failure
    and the fetch fails too, the update throws the error of the third
    update request after four requests; the error of the fetch is not
    reported, and no second attempt is made. *)
Theorem failed_fetch_reports_the_third_refusal :
  forall (etag : string) (s s1 s2 s3 s4 : Service)
         (e1 e2 e3 refreshError : Thrown),
    makeRequest (putRequest noteId etag d) s = (Throw e1, s1) ->
    is412 e1 = true ->
    makeRequest (putRequest noteId (JsString.quoted etag) d) s1
    = (Throw e2, s2) ->
    is412 e2 = true ->
    makeRequest
      (putRequest noteId (JsString.remove_all JsString.dquote etag) d) s2
    = (Throw e3, s3) ->
    is412 e3 = true ->
    makeRequest (getRequest noteId) s3 = (Throw refreshError, s4) ->
    updateNote makeRequest noteId etag d (s, [])
    = (Throw e3,
       (s4,
        [ (putRequest noteId etag d, Throw e1);
          (putRequest noteId (JsString.quoted etag) d, Throw e2);
          (putRequest noteId (JsString.remove_all JsString.dquote etag) d,
           Throw e3);
          (getRequest noteId, Throw refreshError) ])).
Proof.
  intros etag s s1 s2 s3 s4 e1 e2 e3 refreshError H1 He1 H2 He2 H3 He3 Hg.
  rewrite updateNote_eq.
  rewrite (etagLoop_three_refusals etag s s1 s2 s3 e1 e2 e3) by assumption.
  rewrite He3. unfold getNote. rewrite request_eq.
  fold (getRequest noteId). rewrite Hg. reflexivity.
Qed.

(** X7: when the three encodings of a stale tag are refused with a
    precondition failure, the note is fetched, and the service accepts
    the tag of the fetched note as it is, the update returns the note of
    that fifth request: the update is applied on top of the other
    editor's version. *)
Theorem stale_tag_is_replaced_by_the_fetched_one :
  forall (etag : string) (s s1 s2 s3 s4 s5 : Service)
         (e1 e2 e3 : Thrown) (freshNote note : Note),
    makeRequest (putRequest noteId etag d) s = (Throw e1, s1) ->
    is412 e1 = true ->
    makeRequest (putRequest noteId (JsString.quoted etag) d) s1
    = (Throw e2, s2) ->
    is412 e2 = true ->
    makeRequest
      (putRequest noteId (JsString.remove_all JsString.dquote etag) d) s2
    = (Throw e3, s3) ->
    is412 e3 = true ->
    makeRequest (getRequest noteId) s3 = (Return freshNote, s4) ->
    makeRequest (putRequest noteId (Notes.etag freshNote) d) s4
    = (Return note, s5) ->
    updateNote makeRequest noteId etag d (s, [])
    = (Return note,
       (s5,
        [ (putRequest noteId etag d, Throw e1);
          (putRequest noteId (JsString.quoted etag) d, Throw e2);
          (putRequest noteId (JsString.remove_all JsString.dquote etag) d,
           Throw e3);
          (getRequest noteId, Return freshNote);
          (putRequest noteId (Notes.etag freshNote) d, Return note) ])).
Proof.
  intros etag s s1 s2 s3 s4 s5 e1 e2 e3 freshNote note
         H1 He1 H2 He2 H3 He3 Hg H5.
  rewrite updateNote_eq.
  rewrite (etagLoop_three_refusals etag s s1 s2 s3 e1 e2 e3) by assumption.
  rewrite He3. unfold getNote. rewrite request_eq.
  fold (getRequest noteId). rewrite Hg. cbn [fst snd].
  unfold etagFormats. rewrite etagLoop_step. cbv zeta. rewrite H5.
  reflexivity.
Qed.

(** X8: the second attempt works with the tag of the fetched note: when
    the fourth exchange of an update is the fetch of a note, the
    requests after it are updates with the encodings of the tag of that
    note, in their order. *)
Theorem second_attempt_uses_the_fetched_tag :
  forall (etag : string) (s : Service) (config : RequestConfig)
         (freshNote : Note),
    let log := snd (snd (updateNote makeRequest noteId etag d (s, []))) in
    nth_error log 3 = Some (config, Return freshNote) ->
    config = getRequest noteId
    /\ map fst (skipn 4 log)
       = map (fun f => putRequest noteId f d)
           (firstn (length log - 4) (etagFormats (Notes.etag freshNote))).
Proof.
  intros etag s config freshNote log Hnth.
  pose proof (updateNote_trace makeRequest noteId d etag s) as T.
  fold log in T. revert Hnth T. generalize log.
  generalize (fst (updateNote makeRequest noteId etag d (s, []))).
  clear log. intros c log Hnth T.
  destruct T as [etag log note H|etag log error0 H He
                |etag log error0 re H He|etag log error0 fresh log' c1 H He H'].
  - pose proof (loop_trace_length _ _ _ _ _ _ H) as Hlen. simpl in Hlen.
    assert (3 < length log) by (apply nth_error_Some; congruence). lia.
  - pose proof (loop_trace_length _ _ _ _ _ _ H) as Hlen. simpl in Hlen.
    assert (3 < length log) by (apply nth_error_Some; congruence). lia.
  - pose proof (loop_trace_exhausted _ _ _ _ _ _ H He) as Hlen.
    simpl in Hlen. rewrite nth_error_app2, Hlen in Hnth by lia.
    simpl in Hnth. discriminate.
  - pose proof (loop_trace_exhausted _ _ _ _ _ _ H He) as Hlen.
    simpl in Hlen. rewrite nth_error_app2, Hlen in Hnth by lia.
    simpl in Hnth. injection Hnth as <- <-. split; [reflexivity|].
    rewrite skipn_app, Hlen, skipn_all2 by lia. cbn [app Nat.sub skipn].
    rewrite length_app, Hlen. cbn [length].
    replace (3 + S (length log') - 4) with (length log') by lia.
    exact (loop_trace_requests _ _ _ _ _ _ H').
Qed.

End NotesRecoveryRuns.

(** ** The encodings of a tag *)

Lemma remove_all_app (c : ascii) (a b : string) :
  JsString.remove_all c (a ++ b)
  = (JsString.remove_all c a ++ JsString.remove_all c b)%string.
Proof.
  induction a as [|x a IH]; simpl; [reflexivity|].
  destruct (Ascii.eqb x c); simpl; now rewrite IH.
Qed.

(** X9: a tag that is given between double quotes (as a server sends it
    in its [ETag] header) and has no other double quote is tried as it
    is, then between two pairs of double quotes, then bare: removing the
    quotes undoes the quoting. *)
Theorem quoted_tag_is_also_tried_bare :
  forall (tag : string),
    JsString.mem JsString.dquote tag = false ->
    JsString.remove_all JsString.dquote (JsString.quoted tag) = tag
    /\ Notes.etagFormats (JsString.quoted tag)
       = [ JsString.quoted tag; JsString.quoted (JsString.quoted tag); tag ].
Proof.
  intros tag H.
  assert (E : JsString.remove_all JsString.dquote (JsString.quoted tag) = tag).
  { unfold JsString.quoted.
    change (String JsString.dquote (tag ++ String JsString.dquote EmptyString))
      with ((String JsString.dquote EmptyString
             ++ (tag ++ String JsString.dquote EmptyString))%string).
    rewrite !remove_all_app, (JsStringFacts.remove_all_absent _ _ H).
    simpl. clear. induction tag; simpl; congruence. }
  split; [exact E|]. unfold Notes.etagFormats. now rewrite E.
Qed.

(** The third encoding never has a double quote, whatever the tag. *)
Lemma third_encoding_has_no_quote (etag : string) :
  exists third,
    nth_error (Notes.etagFormats etag) 2 = Some third
    /\ JsString.mem JsString.dquote third = false.
Proof.
  eexists. split; [reflexivity|]. apply JsStringFacts.remove_all_mem.
Qed.

Lemma accepted_tag_costs_one_request_witness :
  Notes.updateNote Notes.scripted 7 "T1" Notes.contentUpdate
    ([Return Notes.editedNote], [])
  = (Return Notes.editedNote,
     ([], [(Notes.putRequest 7 "T1" Notes.contentUpdate,
            Return Notes.editedNote)])).
Proof.
  apply (accepted_tag_costs_one_request Notes.scripted 7 Notes.contentUpdate
           "T1" [Return Notes.editedNote] [] Notes.editedNote).
  reflexivity.
Defined.

Lemma fetch_only_after_three_failures_witness :
  3 = 3
  /\ Forall (fun x => Notes.method (fst x) = Notes.PUT
                      /\ exists e, snd x = Throw e /\ Notes.is412 e = true)
       (firstn 3
          (snd (snd (Notes.updateNote Notes.scripted 7 "T0"
                       Notes.contentUpdate (Notes.alwaysStale, []))))).
Proof.
  apply (fetch_only_after_three_failures Notes.scripted 7 Notes.contentUpdate
           "T0" Notes.alwaysStale 3 (Notes.getRequest 7)
           (Return Notes.editedNote));
    reflexivity.
Defined.

Lemma thrown_error_comes_from_an_update_request_witness :
  exists i config,
    nth_error
      (snd (snd (Notes.updateNote Notes.scripted 7 "T0" Notes.contentUpdate
                   (Notes.staleThenUnavailable, [])))) i
    = Some (config, Throw (ErrorObj "Request failed with status code 503"))
    /\ Notes.method config = Notes.PUT.
Proof.
  apply (thrown_error_comes_from_an_update_request Notes.scripted 7
           Notes.contentUpdate "T0" Notes.staleThenUnavailable
           (ErrorObj "Request failed with status code 503")).
  reflexivity.
Defined.

Lemma returned_note_answers_the_last_update_request_witness :
  exists pre config,
    snd (snd (Notes.updateNote Notes.quotedOnly 7 "T0" Notes.contentUpdate
                (Notes.editedNote, [])))
    = pre ++ [(config, Return (Notes.mkNote 7 "A" "z" "c" "T1'"))]
    /\ Notes.method config = Notes.PUT.
Proof.
  apply (returned_note_answers_the_last_update_request Notes.quotedOnly 7
           Notes.contentUpdate "T0" Notes.editedNote
           (Notes.mkNote 7 "A" "z" "c" "T1'")).
  reflexivity.
Defined.

Lemma failed_fetch_reports_the_third_refusal_witness :
  fst (Notes.updateNote Notes.scripted 7 "T0" Notes.contentUpdate
         ([ Notes.preconditionFailed "(1)"; Notes.preconditionFailed "(2)";
            Notes.preconditionFailed "(3)";
            Throw (ErrorObj "getaddrinfo ENOTFOUND cloud.example.com") ], []))
  = Notes.preconditionFailed "(3)".
Proof.
  rewrite (failed_fetch_reports_the_third_refusal Notes.scripted 7
             Notes.contentUpdate "T0"
             [ Notes.preconditionFailed "(1)"; Notes.preconditionFailed "(2)";
               Notes.preconditionFailed "(3)";
               Throw (ErrorObj "getaddrinfo ENOTFOUND cloud.example.com") ]
             [ Notes.preconditionFailed "(2)"; Notes.preconditionFailed "(3)";
               Throw (ErrorObj "getaddrinfo ENOTFOUND cloud.example.com") ]
             [ Notes.preconditionFailed "(3)";
               Throw (ErrorObj "getaddrinfo ENOTFOUND cloud.example.com") ]
             [ Throw (ErrorObj "getaddrinfo ENOTFOUND cloud.example.com") ]
             []
             (ErrorObj "Request failed with status code 412 (1)")
             (ErrorObj "Request failed with status code 412 (2)")
             (ErrorObj "Request failed with status code 412 (3)")
             (ErrorObj "getaddrinfo ENOTFOUND cloud.example.com"));
    reflexivity.
Defined.

Lemma stale_tag_is_replaced_by_the_fetched_one_witness :
  fst (Notes.updateNote Notes.scripted 7 "T0" Notes.contentUpdate
         ([ Notes.preconditionFailed "(1)"; Notes.preconditionFailed "(2)";
            Notes.preconditionFailed "(3)"; Return Notes.editedNote;
            Return (Notes.mkNote 7 "A" "z" "c" "T2") ], []))
  = Return (Notes.mkNote 7 "A" "z" "c" "T2").
Proof.
  rewrite (stale_tag_is_replaced_by_the_fetched_one Notes.scripted 7
             Notes.contentUpdate "T0"
             [ Notes.preconditionFailed "(1)"; Notes.preconditionFailed "(2)";
               Notes.preconditionFailed "(3)"; Return Notes.editedNote;
               Return (Notes.mkNote 7 "A" "z" "c" "T2") ]
             [ Notes.preconditionFailed "(2)"; Notes.preconditionFailed "(3)";
               Return Notes.editedNote;
               Return (Notes.mkNote 7 "A" "z" "c" "T2") ]
             [ Notes.preconditionFailed "(3)"; Return Notes.editedNote;
               Return (Notes.mkNote 7 "A" "z" "c" "T2") ]
             [ Return Notes.editedNote;
               Return (Notes.mkNote 7 "A" "z" "c" "T2") ]
             [ Return (Notes.mkNote 7 "A" "z" "c" "T2") ]
             []
             (ErrorObj "Request failed with status code 412 (1)")
             (ErrorObj "Request failed with status code 412 (2)")
             (ErrorObj "Request failed with status code 412 (3)")
             Notes.editedNote (Notes.mkNote 7 "A" "z" "c" "T2"));
    reflexivity.
Defined.

Lemma second_attempt_uses_the_fetched_tag_witness :
  Notes.getRequest 7 = Notes.getRequest 7
  /\ map fst
       (skipn 4
          (snd (snd (Notes.updateNote Notes.scripted 7 "T0"
                       Notes.contentUpdate (Notes.alwaysStale, [])))))
     = map (fun f => Notes.putRequest 7 f Notes.contentUpdate)
         (firstn
            (length
               (snd (snd (Notes.updateNote Notes.scripted 7 "T0"
                            Notes.contentUpdate (Notes.alwaysStale, []))))
             - 4)
            (Notes.etagFormats (Notes.etag Notes.editedNote))).
Proof.
  apply (second_attempt_uses_the_fetched_tag Notes.scripted 7
           Notes.contentUpdate "T0" Notes.alwaysStale (Notes.getRequest 7)
           Notes.editedNote).
  reflexivity.
Defined.

Lemma quoted_tag_is_also_tried_bare_witness :
  JsString.remove_all JsString.dquote (JsString.quoted "T0") = "T0"
  /\ Notes.etagFormats (JsString.quoted "T0")
     = [ JsString.quoted "T0"; JsString.quoted (JsString.quoted "T0"); "T0" ].
Proof.
  apply (quoted_tag_is_also_tried_bare "T0"). reflexivity.
Defined.

(** ** The keys of the tracker *)
Module TrackerFacts.
Import Analytics.

Lemma split_head_no_separator (c : ascii) (s : string) :
  JsString.mem c (JsString.split_head c s) = false.
Proof.
  induction s as [|a s IH]; simpl; [reflexivity|].
  destruct (Ascii.eqb a c) eqn:E; simpl; [reflexivity|].
  now rewrite E.
Qed.

(** X10: the key under which a client is counted is never the empty
    string; when the [X-Forwarded-For] header starts with a non-empty
    address, the key is that address (the part before the first comma,
    so without a comma), and when the header and [req.ip] give nothing,
    the key is the word unknown. *)
Theorem client_key_is_never_empty :
  forall (req : Request),
    JsString.truthy (clientIpOf req) = true
    /\ (forall forwarded,
          x_forwarded_for req = Some forwarded ->
          JsString.truthy (JsString.split_head ","%char forwarded) = true ->
          clientIpOf req = JsString.split_head ","%char forwarded
          /\ JsString.mem ","%char (clientIpOf req) = false)
    /\ (Server.truthyOpt
          (option_map (JsString.split_head ","%char) (x_forwarded_for req))
        = false ->
        Server.truthyOpt (ip req) = false ->
        clientIpOf req = "unknown").
Proof.
  intros [m xff ipa ua]. unfold clientIpOf, or_opt, JsString.opt_or_else,
    JsString.or_else, Server.truthyOpt. cbn [x_forwarded_for ip option_map].
  split; [|split].
  - destruct xff as [fwd|]; cbn [option_map].
    + destruct (JsString.truthy (JsString.split_head ","%char fwd)) eqn:E.
      * now rewrite E.
      * destruct ipa as [a|]; [|reflexivity].
        destruct (JsString.truthy a) eqn:E'; [exact E'|reflexivity].
    + destruct ipa as [a|]; [|reflexivity].
      destruct (JsString.truthy a) eqn:E'; [exact E'|reflexivity].
  - intros fwd -> E. cbn [option_map]. rewrite !E.
    split; [reflexivity|apply split_head_no_separator].
  - destruct xff as [fwd|]; cbn [option_map]; intros E1 E2.
    + rewrite E1. destruct ipa as [a|]; [|reflexivity]. now rewrite E2.
    + destruct ipa as [a|]; [|reflexivity]. now rewrite E2.
Qed.

(** X11: the key under which a user agent is counted is never empty.  It
    has no slash (it is the product name in front of the first slash, or
    the whole agent when there is no slash, however long), unless the
    agent begins with a slash: then it is the first 30 characters of the
    agent. *)
Theorem agent_key_is_never_empty :
  forall (req : Request),
    JsString.truthy (shortAgentOf req) = true
    /\ (JsString.mem "/"%char (shortAgentOf req) = false
        \/ exists agent rest,
             user_agent req = Some agent
             /\ agent = String "/"%char rest
             /\ shortAgentOf req = JsString.substring_to 30 agent).
Proof.
  intros [m xff ipa ua]. unfold shortAgentOf. cbn [user_agent].
  remember (JsString.opt_or_else ua "unknown") as userAgent eqn:Hu.
  assert (Hne : JsString.truthy userAgent = true).
  { subst userAgent. destruct ua as [a|]; [|reflexivity].
    unfold JsString.opt_or_else, JsString.or_else.
    destruct (JsString.truthy a) eqn:E; [exact E|reflexivity]. }
  unfold JsString.or_else.
  destruct (JsString.truthy (JsString.split_head "/"%char userAgent)) eqn:E.
  - split; [exact E|]. left. apply split_head_no_separator.
  - destruct userAgent as [|c rest]; [discriminate|].
    simpl in E. destruct (Ascii.eqb c "/"%char) eqn:Ec; [|discriminate].
    apply Ascii.eqb_eq in Ec. subst c.
    split; [reflexivity|]. right.
    destruct ua as [a|]; [|discriminate].
    unfold JsString.opt_or_else, JsString.or_else in Hu.
    destruct (JsString.truthy a); [|discriminate].
    exists a, rest. subst a. auto.
Qed.




End TrackerFacts.

(** ** What the counters keep *)
Module InvariantFacts.
Import JsObject Analytics Server.

Lemma total_app (o : Obj) (k : string) (v : Value) :
  total (o ++ [(k, v)]) = (total o + number v)%Z.
Proof. induction o as [|kv o IH]; simpl; lia. Qed.

Lemma total_insert_index (n : N) (k : string) (v : Value) (o : Obj) :
  total (insert_index n k v o) = (total o + number v)%Z.
Proof.
  induction o as [|[k' v'] o IH]; simpl; [lia|].
  destruct (array_index k') as [n'|]; [destruct (n' <? n)%N|]; simpl; lia.
Qed.

Lemma total_update (k : string) (v x : Value) (o : Obj) :
  get k o = Some x ->
  total (update k v o) = (total o - number x + number v)%Z.
Proof.
  induction o as [|[k' v'] o IH]; simpl; [discriminate|].
  destruct (String.eqb k' k); simpl.
  - intros [= ->]. lia.
  - intros H. rewrite (IH H). lia.
Qed.

Lemma total_set_new (k : string) (v : Value) (o : Obj) :
  get k o = None -> total (set k v o) = (total o + number v)%Z.
Proof.
  intros E. unfold set. rewrite E. destruct (array_index k).
  - apply total_insert_index.
  - apply total_app.
Qed.

Lemma get_In (k : string) (x : Value) (o : Obj) :
  get k o = Some x -> In (k, x) o.
Proof.
  induction o as [|[k' v'] o IH]; simpl; [discriminate|].
  destruct (String.eqb k' k) eqn:E.
  - apply String.eqb_eq in E. intros [= ->]. left. now subst.
  - intros H. right. auto.
Qed.

Lemma Forall_update (P : string * Value -> Prop) (k : string) (v : Value)
    (o : Obj) :
  P (k, v) -> Forall P o -> Forall P (update k v o).
Proof.
  intros Hk. induction 1 as [|[k' v'] o Hx Ho IH]; simpl; [constructor|].
  destruct (String.eqb k' k) eqn:E.
  - apply String.eqb_eq in E. subst k'. now constructor.
  - now constructor.
Qed.

Lemma Forall_insert_index (P : string * Value -> Prop) (n : N) (k : string)
    (v : Value) (o : Obj) :
  P (k, v) -> Forall P o -> Forall P (insert_index n k v o).
Proof.
  intros Hk. induction 1 as [|[k' v'] o Hx Ho IH]; simpl.
  - now repeat constructor.
  - destruct (array_index k') as [n'|]; [destruct (n' <? n)%N|];
      repeat constructor; auto.
Qed.

Lemma Forall_set (P : string * Value -> Prop) (k : string) (v : Value)
    (o : Obj) :
  P (k, v) -> Forall P o -> Forall P (set k v o).
Proof.
  intros Hk Ho. unfold set. destruct (get k o).
  - now apply Forall_update.
  - destruct (array_index k).
    + now apply Forall_insert_index.
    + apply Forall_app. split; [exact Ho|now repeat constructor].
Qed.

Lemma Forall_assign (P : string * Value -> Prop) (k : string) (v : Value)
    (o : Obj) :
  P (k, v) -> Forall P o -> Forall P (assign k v o).
Proof.
  intros Hk Ho. unfold assign. destruct (get k o).
  - now apply Forall_update.
  - destruct (String.eqb k "__proto__"); [exact Ho|now apply Forall_set].
Qed.

Lemma length_assign (k : string) (v : Value) (o : Obj) :
  length (assign k v o) <= S (length o).
Proof.
  unfold assign. destruct (get k o).
  - rewrite JsObjectFacts.length_update. lia.
  - destruct (String.eqb k "__proto__"); [lia|].
    apply JsObjectFacts.length_set.
Qed.

(** Counting never lowers a number that is at most 2^53 and at least
    0, and raises it by one at most. *)
Lemma succ_between (n : Z) :
  (0 <= n <= JsNumber.two53)%Z ->
  (n <= JsNumber.succ n <= JsNumber.two53)%Z /\ (1 <= JsNumber.succ n)%Z
  /\ (JsNumber.succ n < JsNumber.two53 ->
      JsNumber.succ n = n + 1)%Z.
Proof.
  intros H. rewrite (JsNumberFacts.succ_capped n H).
  unfold JsNumber.two53 in *. lia.
Qed.

Lemma succ_monotone (m n : Z) :
  (0 <= m <= n)%Z -> (n <= JsNumber.two53)%Z ->
  (JsNumber.succ m <= JsNumber.succ n)%Z.
Proof.
  intros H H'.
  rewrite (JsNumberFacts.succ_capped m), (JsNumberFacts.succ_capped n); lia.
Qed.

Lemma counted_weaken (n n' : Z) (kv : string * Value) :
  (n <= n')%Z -> counted n kv -> counted n' kv.
Proof. unfold counted. destruct (snd kv); [lia|auto]. Qed.

(** What counting writes under a key is what counting leaves. *)
Lemma counted_plus_one (k : string) (o : Obj) (n : Z) :
  (0 <= n <= JsNumber.two53)%Z ->
  Forall (counted n) o ->
  counted (JsNumber.succ n) (k, plus_one (read k o)).
Proof.
  intros Hn Ho. unfold read.
  destruct (get k o) as [[c|member ones]|] eqn:E.
  - apply get_In in E. rewrite Forall_forall in Ho.
    specialize (Ho _ E). unfold counted in *. simpl in *.
    pose proof (succ_monotone c n). pose proof (succ_between c). lia.
  - apply get_In in E. rewrite Forall_forall in Ho.
    specialize (Ho _ E). unfold counted in *. simpl in *.
    destruct Ho as (H1 & H2 & H3). auto with arith.
  - destruct (inherited k) eqn:Ek; unfold counted; simpl.
    + auto.
    + pose proof (succ_between n). lia.
Qed.

(** The sum of the numbers after counting under a key, in the range
    where counting is exact: it is the sum before, or one more. *)
Lemma total_increment_bounds (k : string) (o : Obj) (n : Z) :
  (n < JsNumber.two53)%Z ->
  Forall (counted n) o ->
  (total o <= total (increment k o) <= total o + 1)%Z.
Proof.
  intros Hn Ho. unfold increment, assign, read.
  destruct (get k o) as [[c|member ones]|] eqn:E.
  - rewrite (total_update _ _ _ _ E). simpl.
    apply get_In in E. rewrite Forall_forall in Ho.
    specialize (Ho _ E). unfold counted in Ho. simpl in Ho.
    rewrite JsNumberFacts.succ_exact; unfold JsNumber.two53 in *; lia.
  - rewrite (total_update _ _ _ _ E). simpl. lia.
  - destruct (String.eqb k "__proto__"); [lia|].
    rewrite (total_set_new _ _ _ E).
    destruct (inherited k); simpl; lia.
Qed.

(** Under a key that is no inherited name, in an object that holds
    numbers, counting adds exactly one to the sum, and keeps the object
    one of numbers. *)
Lemma total_increment_exact (k : string) (o : Obj) (n : Z) :
  inherited k = false ->
  (n < JsNumber.two53)%Z ->
  Forall (counted n) o ->
  total (increment k o) = (total o + 1)%Z.
Proof.
  intros Hk Hn Ho. unfold increment, assign, read.
  destruct (get k o) as [[c|member ones]|] eqn:E.
  - rewrite (total_update _ _ _ _ E). simpl.
    apply get_In in E. rewrite Forall_forall in Ho.
    specialize (Ho _ E). unfold counted in Ho. simpl in Ho.
    rewrite JsNumberFacts.succ_exact; unfold JsNumber.two53 in *; lia.
  - apply get_In in E. rewrite Forall_forall in Ho.
    specialize (Ho _ E). unfold counted in Ho. simpl in Ho.
    destruct Ho as [Ho _]. congruence.
  - rewrite Hk.
    pose proof (JsObjectFacts.inherited_not_proto k Hk) as Hp.
    apply String.eqb_neq in Hp. rewrite Hp.
    rewrite (total_set_new _ _ _ E). reflexivity.
Qed.

Lemma numbers_increment (k : string) (o : Obj) :
  inherited k = false -> numbers o -> numbers (increment k o).
Proof.
  intros Hk Ho. unfold increment. apply Forall_assign; [|exact Ho].
  unfold read. destruct (get k o) as [[c|member ones]|] eqn:E; simpl.
  - eauto.
  - apply get_In in E. unfold numbers in Ho. rewrite Forall_forall in Ho.
    destruct (Ho _ E) as [n Hn]. discriminate.
  - rewrite Hk. simpl. eauto.
Qed.

Lemma numbers_is_count (k : string) (o : Obj) :
  numbers o -> is_count k o.
Proof.
  intros Ho. unfold is_count. destruct (get k o) as [v|] eqn:E; [|now left].
  right. apply get_In in E. unfold numbers in Ho.
  rewrite Forall_forall in Ho. destruct (Ho _ E) as [n Hn].
  simpl in Hn. subst v. eauto.
Qed.

Lemma tally_empty (n : Z) : (0 <= n)%Z -> tally [] n.
Proof. intros H. repeat split; simpl; try constructor; lia. Qed.

(** Counting one more event keeps a tally. *)
Lemma tally_increment (k : string) (o : Obj) (n : Z) :
  (0 <= n <= JsNumber.two53)%Z ->
  tally o n -> tally (increment k o) (JsNumber.succ n).
Proof.
  intros Hn (Hnd & Hpos & Hsum).
  pose proof (succ_between n Hn) as (Hs1 & Hs2 & Hs3).
  split; [|split].
  - now apply SummaryFacts.keys_increment_NoDup.
  - unfold increment. apply Forall_assign.
    + now apply counted_plus_one.
    + apply (Forall_impl _ (fun kv => counted_weaken n _ kv (proj1 Hs1))).
      exact Hpos.
  - intros Hlt. specialize (Hs3 Hlt).
    assert (Hn' : (n < JsNumber.two53)%Z) by lia.
    destruct (Hsum Hn') as [Hlen Htot].
    pose proof (total_increment_bounds k o n Hn' Hpos).
    pose proof (length_assign k (plus_one (read k o)) o).
    unfold increment at 1. lia.
Qed.

Lemma tally_bounds (o : Obj) (n : Z) (k : string) (v : Value) :
  tally o n -> In (k, v) o -> counted n (k, v).
Proof.
  intros (_ & Hpos & _) Hin. rewrite Forall_forall in Hpos. now apply Hpos.
Qed.

(** The number under a key of a tally. *)
Lemma tally_get (o : Obj) (n : Z) (k : string) :
  (0 <= n)%Z -> tally o n -> (0 <= get_or_zero k o <= n)%Z.
Proof.
  intros Hn T. unfold get_or_zero.
  destruct (get k o) as [[c|member ones]|] eqn:E; try lia.
  apply get_In in E. pose proof (tally_bounds _ _ _ _ T E) as H.
  unfold counted in H. simpl in H. lia.
Qed.


Lemma tally_is_count (o : Obj) (n : Z) (k : string) :
  tally o n -> inherited k = false -> is_count k o.
Proof.
  intros T Hk. unfold is_count.
  destruct (get k o) as [[c|member ones]|] eqn:E; [right; eauto| |now left].
  apply get_In in E. pose proof (tally_bounds _ _ _ _ T E) as H.
  unfold counted in H. simpl in H. destruct H as [H _]. congruence.
Qed.

(** The totals of a reachable state are numbers from 0 to 2^53. *)
Lemma reachable_totals (startTime : string) (a : Analytics) :
  Reachable startTime a ->
  (0 <= totalRequests a <= JsNumber.two53)%Z
  /\ (0 <= totalToolCalls a <= JsNumber.two53)%Z.
Proof.
  induction 1 as [|now req endpoint a _ [IH1 IH2]
                  |now toolName ip a _ [IH1 IH2]].
  - simpl. unfold JsNumber.two53. lia.
  - cbn [trackRequest totalRequests totalToolCalls].
    pose proof (succ_between _ IH1). lia.
  - unfold trackToolCall. cbn [totalRequests totalToolCalls].
    pose proof (succ_between _ IH2). lia.
Qed.

(** The tallies of a reachable state. *)
Lemma reachable_tallies (startTime : string) (a : Analytics) :
  Reachable startTime a ->
  tally (requestsByMethod a) (totalRequests a)
  /\ tally (requestsByEndpoint a) (totalRequests a)
  /\ tally (clientsByIp a) (totalRequests a)
  /\ tally (clientsByUserAgent a) (totalRequests a)
  /\ tally (hourlyRequests a) (totalRequests a)
  /\ tally (toolCalls a) (totalToolCalls a).
Proof.
  induction 1 as [|now req endpoint a Hr IH|now toolName ip a Hr IH].
  - simpl.
    split; [|split; [|split; [|split; [|split]]]];
      apply tally_empty; lia.
  - destruct IH as (H1 & H2 & H3 & H4 & H5 & H6).
    destruct (reachable_totals _ _ Hr) as [Hn _].
    unfold trackRequest.
    cbn [ requestsByMethod requestsByEndpoint clientsByIp
         clientsByUserAgent hourlyRequests toolCalls totalRequests
         totalToolCalls].
    split; [|split; [|split; [|split; [|split]]]];
      try (apply tally_increment; assumption); assumption.
  - destruct IH as (H1 & H2 & H3 & H4 & H5 & H6).
    destruct (reachable_totals _ _ Hr) as [_ Hn].
    unfold trackToolCall.
    cbn [requestsByMethod requestsByEndpoint clientsByIp
         clientsByUserAgent hourlyRequests toolCalls totalRequests
         totalToolCalls].
    split; [|split; [|split; [|split; [|split]]]];
      try assumption. now apply tally_increment.
Qed.

(** The hours of a reachable state hold numbers, and these add up to
    the total of the requests while that total is below 2^53. *)
Lemma reachable_hours_exact (startTime : string) (a : Analytics) :
  Reachable startTime a ->
  numbers (hourlyRequests a)
  /\ ((totalRequests a < JsNumber.two53)%Z ->
      total (hourlyRequests a) = totalRequests a).
Proof.
  induction 1 as [|now req endpoint a Hr [IH1 IH2]|now toolName ip a Hr IH].
  - split; [constructor|reflexivity].
  - destruct (reachable_totals _ _ Hr) as [Hn _].
    destruct (reachable_tallies _ _ Hr) as (_ & _ & _ & _ & (_ & T & _) & _).
    cbn [trackRequest hourlyRequests totalRequests]. split.
    + apply numbers_increment; [apply SummaryFacts.inherited_hourKey|].
      exact IH1.
    + intros Hlt. destruct (succ_between _ Hn) as (_ & _ & Hs).
      rewrite (Hs Hlt).
      rewrite (total_increment_exact _ _ (totalRequests a));
        [|apply SummaryFacts.inherited_hourKey|lia|exact T].
      rewrite IH2; lia.
  - exact IH.
Qed.

Lemma served_reachable (startTime : string) (a : Analytics) :
  Served startTime a -> Reachable startTime a.
Proof.
  induction 1 as [|now now' req route a _ IH]; [constructor|].
  destruct route; cbn [serve]; try now constructor.
  unfold trackMcp. destruct (trackedTool body); now repeat constructor.
Qed.

Lemma inherited_endpointOf (route : Route) :
  inherited (endpointOf route) = false.
Proof. now destruct route. Qed.

(** What serving a request does to the counters of the requests. *)
Lemma serve_requests (now now' : string) (req : Request) (route : Route)
    (a : Analytics) :
  totalRequests (serve now now' req route a)
  = JsNumber.succ (totalRequests a)
  /\ requestsByEndpoint (serve now now' req route a)
     = increment (endpointOf route) (requestsByEndpoint a).
Proof.
  destruct route; cbn [serve endpointOf]; try (split; reflexivity).
  unfold trackMcp. destruct (trackedTool body); split; reflexivity.
Qed.

(** The endpoints of a server hold numbers, and these add up to the
    total of the requests while that total is below 2^53. *)
Lemma served_endpoints_exact (startTime : string) (a : Analytics) :
  Served startTime a ->
  numbers (requestsByEndpoint a)
  /\ ((totalRequests a < JsNumber.two53)%Z ->
      total (requestsByEndpoint a) = totalRequests a).
Proof.
  induction 1 as [|now now' req route a Hs [IH1 IH2]].
  - split; [constructor|reflexivity].
  - pose proof (served_reachable _ _ Hs) as Hr.
    destruct (reachable_totals _ _ Hr) as [Hn _].
    destruct (reachable_tallies _ _ Hr) as (_ & (_ & T & _) & _).
    destruct (serve_requests now now' req route a) as [-> ->]. split.
    + apply numbers_increment; [apply inherited_endpointOf|exact IH1].
    + intros Hlt. destruct (succ_between _ Hn) as (_ & _ & Hs').
      rewrite (Hs' Hlt).
      rewrite (total_increment_exact _ _ (totalRequests a));
        [|apply inherited_endpointOf|lia|exact T].
      rewrite IH2; lia.
Qed.

(** X13: in every state of a server that started without a snapshot,
    while the total of the requests is below 2^53, the counts by
    endpoint and the counts by hour each add up to the total of the
    requests, and the numbers of each other breakdown of the requests
    (by method, by client address, by user agent) add up to at most that
    total: a request whose key is the name of an inherited member is in
    the total and adds no number to the breakdown.  Likewise the numbers
    by tool add up to at most the total of the tool calls. *)
Theorem breakdowns_add_up_to_the_totals :
  forall (startTime : string) (a : Analytics),
    Served startTime a ->
    ((totalRequests a < JsNumber.two53)%Z ->
     total (requestsByEndpoint a) = totalRequests a
     /\ total (hourlyRequests a) = totalRequests a
     /\ (total (requestsByMethod a) <= totalRequests a)%Z
     /\ (total (clientsByIp a) <= totalRequests a)%Z
     /\ (total (clientsByUserAgent a) <= totalRequests a)%Z)
    /\ ((totalToolCalls a < JsNumber.two53)%Z ->
        (total (toolCalls a) <= totalToolCalls a)%Z).
Proof.
  intros startTime a H.
  pose proof (served_reachable _ _ H) as Hr.
  destruct (reachable_tallies startTime a Hr)
    as ((_ & _ & H1) & _ & (_ & _ & H3) & (_ & _ & H4) & _ & (_ & _ & H6)).
  destruct (served_endpoints_exact _ _ H) as [_ H2].
  destruct (reachable_hours_exact _ _ Hr) as [_ H5].
  split.
  - intros Hlt. split; [now apply H2|]. split; [now apply H5|].
    split; [now apply H1|]. split; [now apply H3|now apply H4].
  - intros Hlt. now apply H6.
Qed.


(** The length of the ring in a reachable state. *)
Lemma reachable_ring_length (startTime : string) (a : Analytics) :
  Reachable startTime a ->
  length (recentToolCalls a) = Nat.min (Z.to_nat (totalToolCalls a)) 100.
Proof.
  intros H.
  induction H as [|now req endpoint a _ IH|now toolName ip a Hr IH].
  - reflexivity.
  - exact IH.
  - destruct (reachable_totals _ _ Hr) as [_ Hn].
    rewrite AnalyticsFacts.trackToolCall_recent by lia.
    rewrite length_firstn. cbn [length].
    unfold trackToolCall. cbn [totalToolCalls].
    rewrite (JsNumberFacts.succ_capped _ Hn). rewrite IH.
    unfold JsNumber.two53 in *. lia.
Qed.


(** X16: a tool call is only ever tracked inside a request to [/mcp]
    that has been counted already: in every state of a server that
    started without a snapshot and has served requests, the total of the
    tool calls is at most the count of the endpoint [/mcp], which is at
    most the total of the requests. *)
Theorem tool_calls_are_requests :
  forall (startTime : string) (a : Analytics),
    Served startTime a ->
    (0 <= totalToolCalls a
     <= get_or_zero "/mcp" (requestsByEndpoint a))%Z
    /\ (get_or_zero "/mcp" (requestsByEndpoint a) <= totalRequests a)%Z.
Proof.
  intros startTime a H. split.
  - induction H as [|now now' req route a Hs IH];
      [unfold get_or_zero; simpl; lia|].
    pose proof (served_reachable _ _ Hs) as Hr.
    destruct (reachable_totals _ _ Hr) as [Hn Hn'].
    destruct (reachable_tallies _ _ Hr) as (_ & T & _).
    pose proof (tally_get _ _ "/mcp" (proj1 Hn) T) as Hm.
    destruct route; cbn [serve endpointOf];
      try (cbn [trackRequest totalToolCalls requestsByEndpoint];
           rewrite JsObjectFacts.increment_other by discriminate;
           exact IH).
    unfold trackMcp.
    assert (E : get_or_zero "/mcp"
                  (requestsByEndpoint (trackRequest now req "/mcp" a))
                = JsNumber.succ (get_or_zero "/mcp" (requestsByEndpoint a))).
    { apply AnalyticsFacts.trackRequest_endpoint_same; [reflexivity|].
      now apply (tally_is_count _ _ _ T). }
    assert (Hm' : (0 <= get_or_zero "/mcp" (requestsByEndpoint a)
                   <= JsNumber.two53)%Z) by lia.
    pose proof (succ_between _ Hm') as (Hs1 & _).
    destruct (trackedTool body) as [name|].
    + unfold trackToolCall at 1 2 3.
      cbn [totalToolCalls requestsByEndpoint]. rewrite E.
      cbn [trackRequest totalToolCalls].
      pose proof (succ_between _ Hn') as (Hs2 & _).
      pose proof (succ_monotone (totalToolCalls a)
                    (get_or_zero "/mcp" (requestsByEndpoint a))).
      lia.
    + rewrite E. cbn [trackRequest totalToolCalls]. lia.
  - apply served_reachable in H.
    destruct (reachable_totals _ _ H) as [Hn _].
    destruct (reachable_tallies startTime a H) as (_ & H2 & _).
    now apply tally_get.
Qed.

(** X17: the breakdown by endpoint only ever has the five paths of the
    handlers as keys, so at most five entries, whatever the requests
    are. *)
Theorem endpoints_are_the_five_paths :
  forall (startTime : string) (a : Analytics),
    Served startTime a ->
    Forall (fun k => In k paths) (keys (requestsByEndpoint a))
    /\ length (requestsByEndpoint a) <= 5.
Proof.
  intros startTime a H.
  assert (F : Forall (fun k => In k paths) (keys (requestsByEndpoint a))).
  { induction H as [|now now' req route a _ IH]; [constructor|].
    assert (G : forall e, In e paths ->
                Forall (fun k => In k paths)
                  (keys (requestsByEndpoint (trackRequest now req e a)))).
    { intros e He. cbn [trackRequest requestsByEndpoint].
      now apply SummaryFacts.keys_increment_Forall. }
    destruct route; cbn [serve endpointOf]; try (apply G; simpl; tauto).
    unfold trackMcp. destruct (trackedTool body);
      [unfold trackToolCall; cbn [requestsByEndpoint]|];
      apply G; simpl; tauto. }
  split; [exact F|].
  apply served_reachable in H.
  destruct (reachable_tallies startTime a H) as (_ & (Hnd & _) & _).
  change 5 with (length paths).
  rewrite <- (length_map fst (requestsByEndpoint a)).
  apply NoDup_incl_length; [exact Hnd|].
  intros k Hk. rewrite Forall_forall in F. now apply F.
Qed.

End InvariantFacts.

(** ** The ring and the counters together *)
Module RingFacts.
Import JsObject Analytics Server InvariantFacts.

Lemma In_firstn {A} (n : nat) (l : list A) (x : A) :
  In x (firstn n l) -> In x l.
Proof.
  intros H. rewrite <- (firstn_skipn n l). apply in_or_app. now left.
Qed.

(** A key is known to an object of counters: it is a key of the
    object unless it names the prototype, and the number under it is at
    least 1 unless it is the name of an inherited member. *)
Lemma known_after_increment (k : string) (o : Obj) (n : Z) :
  (0 <= n <= JsNumber.two53)%Z -> tally o n ->
  (k <> "__proto__" -> get k (increment k o) <> None)
  /\ (inherited k = false -> (1 <= get_or_zero k (increment k o))%Z).
Proof.
  intros Hn T. split.
  - intros Hk. unfold increment.
    rewrite JsObjectFacts.get_assign_same by now right. discriminate.
  - intros Hk.
    rewrite JsObjectFacts.increment_same
      by (assumption || now apply (tally_is_count _ _ _ T)).
    pose proof (tally_get _ _ k (proj1 Hn) T) as Hg.
    assert (Hg' : (0 <= get_or_zero k o <= JsNumber.two53)%Z) by lia.
    pose proof (succ_between _ Hg'). lia.
Qed.

Lemma known_kept (k k' : string) (o : Obj) (n : Z) :
  (0 <= n <= JsNumber.two53)%Z -> tally o n ->
  (k <> "__proto__" -> get k o <> None)
  /\ (inherited k = false -> (1 <= get_or_zero k o)%Z) ->
  (k <> "__proto__" -> get k (increment k' o) <> None)
  /\ (inherited k = false -> (1 <= get_or_zero k (increment k' o))%Z).
Proof.
  intros Hn T H.
  destruct (String.eqb k k') eqn:E.
  - apply String.eqb_eq in E. subst k'.
    now apply (known_after_increment k o n).
  - apply String.eqb_neq in E.
    rewrite JsObjectFacts.get_increment_other,
      JsObjectFacts.increment_other by assumption.
    exact H.
Qed.

(** The entries of the ring name tools that are known to the counters
    of the tools. *)
Lemma reachable_ring_tools (startTime : string) (a : Analytics) :
  Reachable startTime a ->
  forall e, In e (recentToolCalls a) ->
    (tool e <> "__proto__" -> get (tool e) (toolCalls a) <> None)
    /\ (inherited (tool e) = false ->
        (1 <= get_or_zero (tool e) (toolCalls a))%Z).
Proof.
  induction 1 as [|now req endpoint a _ IH|now toolName ip a Hr IH];
    intros e He.
  - destruct He.
  - exact (IH e He).
  - pose proof (reachable_ring_length _ _ Hr) as Hlen.
    rewrite AnalyticsFacts.trackToolCall_recent in He by lia.
    apply In_firstn in He.
    destruct (reachable_tallies _ _ Hr) as (_ & _ & _ & _ & _ & T).
    destruct (reachable_totals _ _ Hr) as [_ Hn].
    unfold trackToolCall. cbn [toolCalls].
    destruct He as [<-|He]; cbn [tool].
    + now apply (known_after_increment toolName _ (totalToolCalls a)).
    + apply (known_kept _ _ _ (totalToolCalls a)); auto.
Qed.

(** X18: in every state of a server that started without a snapshot and
    has served requests, each entry of the ring of the recent tool calls
    names a tool that the breakdown by tool knows and a client address
    that the breakdown by client knows: the name is a key of the
    breakdown unless it is the name of the prototype of the objects
    (under which nothing is ever stored), and the number under it is at
    least 1 unless it is the name of a member that every object inherits
    (under which a text is stored, not a number). *)
Theorem ring_entries_are_counted :
  forall (startTime : string) (a : Analytics),
    Served startTime a ->
    forall e,
      In e (recentToolCalls a) ->
      ((tool e <> "__proto__" -> get (tool e) (toolCalls a) <> None)
       /\ (inherited (tool e) = false ->
           (1 <= get_or_zero (tool e) (toolCalls a))%Z))
      /\ ((clientIp e <> "__proto__" ->
           get (clientIp e) (clientsByIp a) <> None)
          /\ (inherited (clientIp e) = false ->
              (1 <= get_or_zero (clientIp e) (clientsByIp a))%Z)).
Proof.
  intros startTime a H e He. split.
  - exact (reachable_ring_tools _ _ (served_reachable _ _ H) e He).
  - revert e He.
    induction H as [|now now' req route a Hs IH]; intros e He;
      [destruct He|].
    pose proof (served_reachable _ _ Hs) as Hr.
    destruct (reachable_tallies _ _ Hr) as (_ & _ & T & _).
    destruct (reachable_totals _ _ Hr) as [Hn _].
    assert (G : forall endpoint e0,
               In e0 (recentToolCalls a) ->
               (clientIp e0 <> "__proto__" ->
                get (clientIp e0)
                  (clientsByIp (trackRequest now req endpoint a)) <> None)
               /\ (inherited (clientIp e0) = false ->
                   (1 <= get_or_zero (clientIp e0)
                           (clientsByIp (trackRequest now req endpoint a)))%Z)).
    { intros endpoint e0 H0. specialize (IH e0 H0).
      cbn [trackRequest clientsByIp].
      now apply (known_kept _ _ _ (totalRequests a)). }
    destruct route; cbn [serve] in *; try (now apply G).
    unfold trackMcp in *. destruct (trackedTool body) as [name|];
      [|now apply G].
    pose proof (reachable_ring_length _ _ Hr) as Hlen.
    rewrite AnalyticsFacts.trackToolCall_recent in He
      by (cbn [trackRequest recentToolCalls]; lia).
    apply In_firstn in He.
    unfold trackToolCall at 1 2. cbn [clientsByIp].
    destruct He as [<-|He]; cbn [clientIp].
    + cbn [trackRequest clientsByIp].
      now apply (known_after_increment _ _ (totalRequests a)).
    + now apply G.
Qed.

(** X22: the summary shows the 20 newest tool calls.  From a state whose
    ring has at most 100 entries, after any sequence of tool calls the
    recent calls of the summary are the first 20 of: the entries of the
    calls, the newest first, followed by the entries the ring had. *)
Theorem summary_shows_the_newest_calls :
  forall (localeCompare : string -> string -> Z)
         (calls : list ToolCallArgs) (a : Analytics),
    length (recentToolCalls a) <= 100 ->
    sum_recentToolCalls (summarize localeCompare (trackToolCalls calls a))
    = firstn 20 (rev (map entryOf calls) ++ recentToolCalls a).
Proof.
  intros localeCompare calls a H.
  cbn [summarize sum_recentToolCalls]. unfold JsArray.slice_to.
  rewrite AnalyticsFacts.trackToolCalls_recent by assumption.
  rewrite firstn_firstn. reflexivity.
Qed.

End RingFacts.

Lemma summary_shows_the_newest_calls_witness :
  length
    (Analytics.sum_recentToolCalls
       (Analytics.summarize Analytics.compareCodes
          (Analytics.trackToolCalls
             (repeat ("2024-05-01T10:00:00.000Z", "create_note", "1.2.3.4")
                30)
             (Analytics.defaultAnalytics "2024-05-01T09:00:00.000Z"))))
  = 20.
Proof.
  rewrite (RingFacts.summary_shows_the_newest_calls Analytics.compareCodes
             (repeat ("2024-05-01T10:00:00.000Z", "create_note", "1.2.3.4")
                30)
             (Analytics.defaultAnalytics "2024-05-01T09:00:00.000Z"));
    [reflexivity | simpl; lia].
Defined.

(** ** What the summary keeps and what it drops *)
Module SummaryOrderFacts.
Import JsObject Analytics Server.

Lemma set_new_perm (k : string) (v : Value) (o : Obj) :
  get k o = None -> Permutation (set k v o) ((k, v) :: o).
Proof.
  intros H. unfold set. rewrite H. destruct (array_index k) as [n|].
  - clear H. induction o as [|[k' v'] o IH]; simpl; [reflexivity|].
    destruct (array_index k') as [n'|]; [|reflexivity].
    destruct (n' <? n)%N; [|reflexivity].
    rewrite IH. apply perm_swap.
  - symmetry. apply Permutation_cons_append.
Qed.

Lemma from_entries_perm_acc (l : list (string * Value)) :
  forall acc : Obj,
    NoDup (keys (acc ++ l)) ->
    Permutation (fold_left (fun acc kv => set (fst kv) (snd kv) acc) l acc)
      (acc ++ l).
Proof.
  induction l as [|[k v] l IH]; intros acc Hnd; simpl.
  - now rewrite app_nil_r.
  - assert (Hget : get k acc = None).
    { apply SummaryFacts.get_absent. unfold keys in *.
      rewrite map_app in Hnd. simpl in Hnd.
      apply NoDup_remove_2 in Hnd. intros Hin. apply Hnd.
      apply in_or_app. now left. }
    pose proof (set_new_perm k v acc Hget) as P.
    rewrite IH.
    + rewrite P. simpl. apply Permutation_middle.
    + unfold keys in *.
      apply (Permutation_NoDup (l := map fst (acc ++ (k, v) :: l)));
        [|exact Hnd].
      apply Permutation_map. rewrite P. simpl. symmetry.
      apply Permutation_middle.
Qed.

(** Entries with distinct keys make an object that has exactly these
    entries, in some order. *)
Lemma from_entries_perm (l : list (string * Value)) :
  NoDup (keys l) -> Permutation (from_entries l) l.
Proof.
  intros H. unfold from_entries.
  now rewrite from_entries_perm_acc.
Qed.

Lemma sorted_split {A} (R : A -> A -> Prop) (l : list A) :
  StronglySorted R l ->
  forall n x y, In x (firstn n l) -> In y (skipn n l) -> R x y.
Proof.
  induction 1 as [|a l Hs IH Ha]; intros [|n] x y Hx Hy; simpl in *;
    try contradiction.
  destruct Hx as [<-|Hx].
  - rewrite Forall_forall in Ha. apply Ha.
    rewrite <- (firstn_skipn n l). apply in_or_app. now right.
  - now apply (IH n).
Qed.

Section Summary.
Variable localeCompare : string -> string -> Z.

(** X19: whatever the names of the tools are, the breakdown by tool of
    the summary has exactly the entries of the counters of the tools,
    each name with its count: the sort and the rebuilding of the object
    may change the order, and nothing else. *)
Theorem tool_breakdown_keeps_every_count :
  forall (a : Analytics),
    NoDup (keys (toolCalls a)) ->
    Permutation (byTool (summarize localeCompare a)) (toolCalls a).
Proof.
  intros a Hnd. cbn [summarize byTool]. unfold sortedTools, entries.
  pose proof (JsArrayFacts.sort_perm byCountDesc (toolCalls a)) as P.
  rewrite from_entries_perm; [exact P|].
  apply (Permutation_NoDup (l := keys (toolCalls a))); [|exact Hnd].
  symmetry. now apply SummaryFacts.keys_perm.
Qed.

(** X20: the clients of the summary are the 20 most frequent ones.  With
    distinct client keys, the summary lists 20 clients, or all of them
    when there are fewer, and no entry is changed; when the counters of
    the clients hold numbers, every client that the summary leaves out
    has a count that is at most the count of every client that it
    lists. *)
Theorem listed_clients_are_the_most_frequent :
  forall (a : Analytics),
    NoDup (keys (clientsByIp a)) ->
    length (byIp (summarize localeCompare a))
    = Nat.min 20 (sum_uniqueClients (summarize localeCompare a))
    /\ exists others,
         Permutation (clientsByIp a)
           (byIp (summarize localeCompare a) ++ others)
         /\ (numbers (clientsByIp a) ->
             forall x y,
               In x (byIp (summarize localeCompare a)) ->
               In y others ->
               (number (snd y) <= number (snd x))%Z).
Proof.
  intros a Hnd. cbn [summarize byIp sum_uniqueClients].
  unfold sortedClients, entries, JsArray.slice_to.
  set (sorted := JsArray.sort byCountDesc (clientsByIp a)).
  pose proof (JsArrayFacts.sort_perm byCountDesc (clientsByIp a)) as P.
  fold sorted in P.
  assert (Hnd' : NoDup (keys (firstn 20 sorted))).
  { assert (Hs : NoDup (keys sorted)).
    { apply (Permutation_NoDup (l := keys (clientsByIp a))); [|exact Hnd].
      symmetry. now apply SummaryFacts.keys_perm. }
    unfold keys in *. rewrite <- (firstn_skipn 20 sorted), map_app in Hs.
    now apply NoDup_app_remove_r in Hs. }
  pose proof (from_entries_perm _ Hnd') as Q.
  split.
  - rewrite (Permutation_length Q), length_firstn.
    unfold keys. rewrite length_map.
    now rewrite (Permutation_length P).
  - exists (skipn 20 sorted). split.
    + rewrite Q, firstn_skipn. now symmetry.
    + intros Hn x y Hx Hy.
      apply (Permutation_in _ Q) in Hx.
      exact (sorted_split _ _
               (SummaryFacts.sort_byCountDesc (clientsByIp a) Hn)
               20 x y Hx Hy).
Qed.

Hypothesis localeCompare_total :
  forall x y, (0 < localeCompare x y)%Z -> (localeCompare y x <= 0)%Z.
Hypothesis localeCompare_trans :
  forall x y z,
    (localeCompare x y <= 0)%Z -> (localeCompare y z <= 0)%Z ->
    (localeCompare x z <= 0)%Z.

(** X21: the hours of the summary are the latest ones, the most recent
    last.  With a collation that is a total preorder, in every state of
    a server that started without a snapshot, the summary has at most 24
    hours, in ascending order of their keys; every hour that it leaves
    out has a key that is at most the key of every hour that it has;
    and no count is changed. *)
Theorem summary_hours_are_the_latest :
  forall (startTime : string) (a : Analytics),
    Reachable startTime a ->
    length (sum_hourlyRequests (summarize localeCompare a)) <= 24
    /\ StronglySorted
         (fun x y => (localeCompare (fst x) (fst y) <= 0)%Z)
         (sum_hourlyRequests (summarize localeCompare a))
    /\ exists older,
         Permutation (hourlyRequests a)
           (sum_hourlyRequests (summarize localeCompare a) ++ older)
         /\ forall x y,
              In x (sum_hourlyRequests (summarize localeCompare a)) ->
              In y older ->
              (localeCompare (fst y) (fst x) <= 0)%Z.
Proof.
  intros startTime a Hr.
  destruct (SummaryFacts.reachable_hour_keys startTime a Hr) as [Hnd Hplain].
  destruct (SummaryFacts.last24Hours_plain localeCompare localeCompare_total
              localeCompare_trans a Hnd Hplain) as [E Hsorted].
  split; [apply SummaryFacts.summary_sizes|]. split; [exact Hsorted|].
  rewrite E.
  set (sorted := JsArray.sort (byKeyDesc localeCompare) (hourlyRequests a)).
  exists (skipn 24 sorted). split.
  - rewrite <- (Permutation_rev (firstn 24 sorted)), firstn_skipn.
    symmetry. apply JsArrayFacts.sort_perm.
  - intros x y Hx Hy. apply in_rev in Hx.
    assert (S : StronglySorted (JsArray.inOrder (byKeyDesc localeCompare))
                  sorted).
    { apply JsArrayFacts.sort_sorted; unfold byKeyDesc; intros.
      - now apply localeCompare_total.
      - eapply localeCompare_trans; eassumption. }
    exact (sorted_split _ _ S 24 x y Hx Hy).
Qed.

End Summary.

(** *** The comparison by character codes is a total order *)

Lemma compareCodes_flip (a : string) :
  forall b, compareCodes b a = (- compareCodes a b)%Z.
Proof.
  induction a as [|x a IH]; intros [|y b]; simpl; try reflexivity.
  destruct (Ascii.eqb x y) eqn:E.
  - apply Ascii.eqb_eq in E. subst y. rewrite Ascii.eqb_refl. apply IH.
  - assert (E' : Ascii.eqb y x = false).
    { apply Ascii.eqb_neq. apply Ascii.eqb_neq in E. congruence. }
    rewrite E'.
    assert (N_of_ascii x <> N_of_ascii y).
    { intros H. apply Ascii.eqb_neq in E. apply E.
      rewrite <- (ascii_N_embedding x), <- (ascii_N_embedding y).
      now rewrite H. }
    destruct (N.ltb_spec (N_of_ascii x) (N_of_ascii y));
      destruct (N.ltb_spec (N_of_ascii y) (N_of_ascii x)); lia.
Qed.

Lemma compareCodes_range (a : string) :
  forall b, (-1 <= compareCodes a b <= 1)%Z.
Proof.
  induction a as [|x a IH]; intros [|y b]; simpl; try lia.
  destruct (Ascii.eqb x y); [apply IH|].
  destruct (N_of_ascii x <? N_of_ascii y)%N; lia.
Qed.

Lemma compareCodes_total (a b : string) :
  (0 < compareCodes a b)%Z -> (compareCodes b a <= 0)%Z.
Proof. rewrite (compareCodes_flip a b). lia. Qed.

Lemma compareCodes_trans (a : string) :
  forall b c,
    (compareCodes a b <= 0)%Z -> (compareCodes b c <= 0)%Z ->
    (compareCodes a c <= 0)%Z.
Proof.
  induction a as [|x a IH]; intros [|y b] [|z c]; simpl; try lia.
  destruct (Ascii.eqb x y) eqn:Exy.
  - apply Ascii.eqb_eq in Exy. subst y.
    destruct (Ascii.eqb x z); [apply IH|]. tauto.
  - destruct (N.ltb_spec (N_of_ascii x) (N_of_ascii y)) as [Hxy|Hxy];
      [|lia].
    intros _.
    destruct (Ascii.eqb y z) eqn:Eyz.
    + apply Ascii.eqb_eq in Eyz. subst z. rewrite Exy.
      intros _. destruct (N.ltb_spec (N_of_ascii x) (N_of_ascii y)); lia.
    + destruct (N.ltb_spec (N_of_ascii y) (N_of_ascii z)) as [Hyz|Hyz];
        [|lia].
      intros _.
      destruct (Ascii.eqb x z) eqn:Exz.
      * apply Ascii.eqb_eq in Exz. subst z. lia.
      * destruct (N.ltb_spec (N_of_ascii x) (N_of_ascii z)); lia.
Qed.

End SummaryOrderFacts.

(** ** Saving and loading *)
Module RestartFacts.
Import Analytics Persistence.

Section Files.
Context {FS : Type}.
Variable existsSync : string -> FS -> bool.
Variable readFileSync : string -> FS -> Completion string * FS.
Variable mkdirSync : string -> FS -> Completion unit * FS.
Variable writeFileSync : string -> string -> FS -> Completion unit * FS.
Variable dirname : string -> string.
Variable JSON_parse : string -> Completion Analytics.
Variable JSON_stringify : Analytics -> Completion string.
Variable ANALYTICS_FILE : string.

Local Notation "'save'" :=
  (saveAnalytics existsSync mkdirSync writeFileSync dirname JSON_stringify
     ANALYTICS_FILE).

(** X23: a snapshot that was saved is what the next start loads.  When
    the directory exists, the write succeeds, the file system gives back
    the text that was written, and the text parses to the state that
    was written, [loadAnalytics] after [saveAnalytics] returns that
    state, whatever the start time of the new process: the counters and
    the start time of the first process go on. *)
Theorem saved_snapshot_is_loaded :
  forall (a : Analytics) (w : World) (text : string) (fs' : FS)
         (startTime' : string),
    existsSync (dirname ANALYTICS_FILE) (fst w) = true ->
    JSON_stringify a = Return text ->
    writeFileSync ANALYTICS_FILE text (fst w) = (Return tt, fs') ->
    existsSync ANALYTICS_FILE fs' = true ->
    fst (readFileSync ANALYTICS_FILE fs') = Return text ->
    JSON_parse text = Return a ->
    save a w = (Return tt, (fs', snd w))
    /\ fst (loadAnalytics existsSync readFileSync JSON_parse ANALYTICS_FILE
              startTime' (snd (save a w)))
       = Return a.
Proof.
  intros a w text fs' startTime' Hdir Htext Hw Hex Hr Hp.
  assert (E : save a w = (Return tt, (fs', snd w))).
  { unfold saveAnalytics, Eff.try_catch, Eff.bind, exists_, onFiles, pure,
      console, Eff.ret.
    cbn [fst snd]. rewrite Hdir. cbn [negb fst snd].
    rewrite Htext, Hw. reflexivity. }
  split; [exact E|]. rewrite E. cbn [snd].
  unfold loadAnalytics, Eff.try_catch, Eff.bind, exists_, onFiles, pure,
    console, Eff.ret.
  cbn [fst snd]. rewrite Hex. cbv beta iota zeta. cbn [fst snd].
  destruct (readFileSync ANALYTICS_FILE fs') as [c fs'']. cbn [fst] in Hr.
  subst c. cbn [fst snd]. rewrite Hp. reflexivity.
Qed.

(** X24: when the directory of the snapshot is missing and cannot be
    made, [saveAnalytics] gives up before it writes: the file system is
    left as the failed [mkdirSync] left it, one warning with the error is
    written to the console, and the call returns. *)
Theorem no_write_without_directory :
  forall (a : Analytics) (w : World) (error : Thrown) (fs' : FS),
    existsSync (dirname ANALYTICS_FILE) (fst w) = false ->
    mkdirSync (dirname ANALYTICS_FILE) (fst w) = (Throw error, fs') ->
    save a w
    = (Return tt,
       (fs', snd w ++ [ConsoleWarn "Could not save analytics file:" error])).
Proof.
  intros a w error fs' Hdir Hmk.
  unfold saveAnalytics, Eff.try_catch, Eff.bind, exists_, onFiles, pure,
    console, Eff.ret.
  cbn [fst snd]. rewrite Hdir. cbn [negb]. rewrite Hmk. reflexivity.
Qed.

End Files.
End RestartFacts.

(** ** The uptime and the credentials *)
Module ServerFacts.
Import Analytics Server.

(** X25: for a clock that is not behind the start time, the three
    numbers of the uptime are the hours, the minutes below 60 and the
    seconds below 60 of the whole seconds that have passed. *)
Theorem uptime_splits_the_seconds :
  forall (diff : Z),
    (0 <= diff)%Z ->
    let '(hours, minutes, seconds) := uptimeParts diff in
    (0 <= hours)%Z
    /\ (0 <= minutes < 60)%Z
    /\ (0 <= seconds < 60)%Z
    /\ (hours * 3600 + minutes * 60 + seconds = diff / 1000)%Z.
Proof.
  intros diff H. unfold uptimeParts.
  rewrite !Z.rem_mod_nonneg by lia.
  Z.div_mod_to_equations. lia.
Qed.

(** X26: [setCredentials] is only ever called with three non-empty
    values.  Each of them is taken from the query of the request when
    the query has it non-empty, and from the environment otherwise, one
    by one: a query that has the three of them decides alone, and a query
    that has a host only is completed by the user name and the password
    of the environment. *)
Theorem credentials_are_chosen_one_by_one :
  forall (query : option Settings) (env : Settings),
    (forall h u p,
        initializeCredentials query env = Some (h, u, p) ->
        JsString.truthy h = true /\ JsString.truthy u = true
        /\ JsString.truthy p = true)
    /\ (forall h u p,
          query = Some (mkSettings (Some h) (Some u) (Some p)) ->
          JsString.truthy h = true -> JsString.truthy u = true ->
          JsString.truthy p = true ->
          initializeCredentials query env = Some (h, u, p))
    /\ (forall h u p,
          query = Some (mkSettings (Some h) None None) ->
          JsString.truthy h = true ->
          nextcloudUsername env = Some u -> JsString.truthy u = true ->
          nextcloudPassword env = Some p -> JsString.truthy p = true ->
          initializeCredentials query env = Some (h, u, p))
    /\ ((forall q, query = Some q ->
                    truthyOpt (nextcloudPassword q) = false) ->
        truthyOpt (nextcloudPassword env) = false ->
        initializeCredentials query env = None).
Proof.
  intros query env. split; [|split; [|split]].
  - intros h u p. unfold initializeCredentials.
    destruct (or_opt _ (nextcloudHost env)) as [h'|]; [|discriminate].
    destruct (or_opt _ (nextcloudUsername env)) as [u'|]; [|discriminate].
    destruct (or_opt _ (nextcloudPassword env)) as [p'|]; [|discriminate].
    destruct (JsString.truthy h') eqn:Eh; [|discriminate].
    destruct (JsString.truthy u') eqn:Eu; [|discriminate].
    destruct (JsString.truthy p') eqn:Ep; [|discriminate].
    intros [= <- <- <-]. auto.
  - intros h u p -> Hh Hu Hp. unfold initializeCredentials, or_opt.
    simpl. rewrite Hh, Hu, Hp. simpl. now rewrite Hh, Hu, Hp.
  - intros h u p -> Hh Eu Hu Ep Hp. unfold initializeCredentials, or_opt.
    simpl. rewrite Hh, Eu, Ep. simpl. now rewrite Hh, Hu, Hp.
  - intros Hq He.
    assert (E : truthyOpt
                  (or_opt
                     match query with
                     | Some q => nextcloudPassword q
                     | None => None
                     end (nextcloudPassword env)) = false).
    { destruct query as [q|]; [|exact He].
      specialize (Hq q eq_refl). unfold or_opt, truthyOpt in *.
      destruct (nextcloudPassword q) as [x|]; [|exact He].
      now rewrite Hq. }
    unfold initializeCredentials, truthyOpt in *.
    destruct (or_opt _ (nextcloudHost env)) as [h'|]; [|reflexivity].
    destruct (or_opt _ (nextcloudUsername env)) as [u'|]; [|reflexivity].
    destruct (or_opt _ (nextcloudPassword env)) as [p'|]; [|reflexivity].
    rewrite E. now rewrite !andb_false_r.
Qed.

End ServerFacts.

(** ** The extras on a morning of a server *)

Lemma quietMorning_served :
  Server.Served "2024-05-01T09:00:00.000Z" Server.quietMorning.
Proof. unfold Server.quietMorning. repeat constructor. Qed.

Lemma quietMorning_reachable :
  Analytics.Reachable "2024-05-01T09:00:00.000Z" Server.quietMorning.
Proof. apply InvariantFacts.served_reachable, quietMorning_served. Qed.

Lemma client_key_is_never_empty_witness :
  Analytics.clientIpOf Server.curl = "203.0.113.9"
  /\ JsString.mem ","%char (Analytics.clientIpOf Server.curl) = false.
Proof.
  apply (proj1 (proj2 (TrackerFacts.client_key_is_never_empty Server.curl))
           "203.0.113.9, 10.0.0.1");
    reflexivity.
Defined.


Lemma breakdowns_add_up_to_the_totals_witness :
  Server.total (Analytics.hourlyRequests Server.quietMorning)
  = Analytics.totalRequests Server.quietMorning.
Proof.
  destruct (InvariantFacts.breakdowns_add_up_to_the_totals
              "2024-05-01T09:00:00.000Z" Server.quietMorning
              quietMorning_served) as [Hrequests _].
  apply Hrequests. reflexivity.
Defined.



Lemma tool_calls_are_requests_witness :
  (JsObject.get_or_zero "/mcp"
     (Analytics.requestsByEndpoint Server.quietMorning)
   <= Analytics.totalRequests Server.quietMorning)%Z.
Proof.
  apply (InvariantFacts.tool_calls_are_requests
           "2024-05-01T09:00:00.000Z" Server.quietMorning
           quietMorning_served).
Defined.

Lemma endpoints_are_the_five_paths_witness :
  length (Analytics.requestsByEndpoint Server.quietMorning) <= 5.
Proof.
  apply (InvariantFacts.endpoints_are_the_five_paths
           "2024-05-01T09:00:00.000Z" Server.quietMorning
           quietMorning_served).
Defined.

Lemma ring_entries_are_counted_witness :
  (1 <= JsObject.get_or_zero "nextcloud_notes_create_note"
          (Analytics.toolCalls Server.quietMorning))%Z
  /\ (1 <= JsObject.get_or_zero "203.0.113.9"
             (Analytics.clientsByIp Server.quietMorning))%Z.
Proof.
  destruct (RingFacts.ring_entries_are_counted
              "2024-05-01T09:00:00.000Z" Server.quietMorning
              quietMorning_served
              (Analytics.mkToolCall "nextcloud_notes_create_note"
                 "2024-05-01T11:05:00.001Z" "203.0.113.9"))
    as [[_ Htool] [_ Hclient]].
  - simpl. left. reflexivity.
  - split; [apply Htool|apply Hclient]; reflexivity.
Defined.

Lemma tool_breakdown_keeps_every_count_witness :
  Permutation
    (Analytics.byTool
       (Analytics.summarize Analytics.compareCodes Analytics.numberedTools))
    (Analytics.toolCalls Analytics.numberedTools).
Proof.
  apply (SummaryOrderFacts.tool_breakdown_keeps_every_count
           Analytics.compareCodes Analytics.numberedTools).
  simpl. repeat constructor; simpl; intuition discriminate.
Defined.

Lemma listed_clients_are_the_most_frequent_witness :
  length
    (Analytics.byIp
       (Analytics.summarize Analytics.compareCodes Server.quietMorning))
  = Nat.min 20
      (Analytics.sum_uniqueClients
         (Analytics.summarize Analytics.compareCodes Server.quietMorning)).
Proof.
  apply (SummaryOrderFacts.listed_clients_are_the_most_frequent
           Analytics.compareCodes Server.quietMorning).
  simpl. repeat constructor; simpl; intuition discriminate.
Defined.

Lemma summary_hours_are_the_latest_witness :
  StronglySorted
    (fun x y => (Analytics.compareCodes (fst x) (fst y) <= 0)%Z)
    (Analytics.sum_hourlyRequests
       (Analytics.summarize Analytics.compareCodes Server.quietMorning)).
Proof.
  apply (SummaryOrderFacts.summary_hours_are_the_latest
           Analytics.compareCodes
           SummaryOrderFacts.compareCodes_total
           (fun x y z => SummaryOrderFacts.compareCodes_trans x y z)
           "2024-05-01T09:00:00.000Z" Server.quietMorning
           quietMorning_reachable).
Defined.

Lemma saved_snapshot_is_loaded_witness :
  fst (Persistence.loadAnalytics Persistence.diskExists Persistence.diskRead
         Persistence.toyParse (Persistence.analyticsFile None)
         "2024-06-01T00:00:00.000Z"
         (snd (Persistence.saveAnalytics Persistence.diskExists
                 Persistence.diskMkdir Persistence.diskWrite
                 Persistence.toyDirname Persistence.toyStringify
                 (Persistence.analyticsFile None)
                 (Analytics.defaultAnalytics "2024-05-01T09:00:00.000Z")
                 (Persistence.mkDisk None true true false, []))))
  = Return (Analytics.defaultAnalytics "2024-05-01T09:00:00.000Z").
Proof.
  apply (RestartFacts.saved_snapshot_is_loaded
           Persistence.diskExists Persistence.diskRead
           Persistence.diskMkdir Persistence.diskWrite
           Persistence.toyDirname Persistence.toyParse
           Persistence.toyStringify (Persistence.analyticsFile None)
           (Analytics.defaultAnalytics "2024-05-01T09:00:00.000Z")
           (Persistence.mkDisk None true true false, [])
           "2024-05-01T09:00:00.000Z"
           (Persistence.mkDisk (Some "2024-05-01T09:00:00.000Z") true true
              false)
           "2024-06-01T00:00:00.000Z");
    reflexivity.
Defined.

Lemma no_write_without_directory_witness :
  Persistence.saveAnalytics Persistence.diskExists Persistence.diskMkdir
    Persistence.diskWrite Persistence.toyDirname Persistence.toyStringify
    (Persistence.analyticsFile None)
    (Analytics.defaultAnalytics "2024-05-01T09:00:00.000Z")
    (Persistence.mkDisk None true false true, [])
  = (Return tt,
     (Persistence.mkDisk None true false true,
      [Persistence.ConsoleWarn "Could not save analytics file:"
         (ErrorObj "ENOSPC: no space left on device")])).
Proof.
  apply (RestartFacts.no_write_without_directory
           Persistence.diskExists Persistence.diskMkdir
           Persistence.diskWrite Persistence.toyDirname
           Persistence.toyStringify (Persistence.analyticsFile None)
           (Analytics.defaultAnalytics "2024-05-01T09:00:00.000Z")
           (Persistence.mkDisk None true false true, [])
           (ErrorObj "ENOSPC: no space left on device")
           (Persistence.mkDisk None true false true));
    reflexivity.
Defined.

Lemma uptime_splits_the_seconds_witness :
  (0 <= 1)%Z /\ (0 <= 2 < 60)%Z /\ (0 <= 5 < 60)%Z
  /\ (1 * 3600 + 2 * 60 + 5 = 3725999 / 1000)%Z.
Proof.
  apply (ServerFacts.uptime_splits_the_seconds 3725999). lia.
Defined.

Lemma credentials_are_chosen_one_by_one_witness :
  Server.initializeCredentials
    (Some (Server.mkSettings (Some "https://cloud.example.org") None None))
    (Server.mkSettings (Some "https://cloud.example.com") (Some "alice")
       (Some "app-password"))
  = Some ("https://cloud.example.org", "alice", "app-password").
Proof.
  apply (proj1 (proj2 (proj2
           (ServerFacts.credentials_are_chosen_one_by_one
              (Some (Server.mkSettings (Some "https://cloud.example.org")
                       None None))
              (Server.mkSettings (Some "https://cloud.example.com")
                 (Some "alice") (Some "app-password"))))));
    reflexivity.
Defined.

(** The uptime of a process that loaded the snapshot of a process
    started one hour, two minutes and five seconds before. *)
Example uptime_after_a_restart :
  Server.getUptime (fun _ => Some 1714554000000%Z) 1714557725999%Z
    (Analytics.defaultAnalytics "2024-05-01T09:00:00.000Z")
  = "1h 2m 5s".
Proof. reflexivity. Qed.

(** ** The document of the analytics endpoint *)
Module EndpointFacts.
Import JsObject Analytics Server.



End EndpointFacts.


